(** * The language-client registry and the infoview bridge of vscode-lean4

    A shallow embedding of [src/utils/clientProvider.ts]
    ([LeanClientProvider]) and of the parts of [src/infoview.ts]
    ([RpcSession], [InfoProvider]) that keep the notification tables and
    the RPC session table.

    JavaScript runs these classes on one thread.  An [async] function runs
    without interruption up to its next [await]; there it is suspended and
    other code may run before it is resumed.  The embedding keeps this
    shape: a function is a [Task], a tree whose nodes read or write the
    shared [World] or suspend on a [Request]; [run] executes one
    uninterrupted segment. *)

From Stdlib Require Import String List ZArith Bool Arith Lia.
Import ListNotations.
Open Scope string_scope.

(** ** JavaScript [Map] with string keys

    A [Map] iterates in insertion order; [set] on a present key keeps the
    key's position, [delete] followed by [set] moves it to the end. *)
Module JsMap.

Definition t (V : Type) : Type := list (string * V).

Definition empty {V : Type} : t V := [].

Fixpoint get {V : Type} (k : string) (m : t V) : option V :=
  match m with
  | [] => None
  | (k', v) :: r => if String.eqb k k' then Some v else get k r
  end.

Definition has {V : Type} (k : string) (m : t V) : bool :=
  match get k m with Some _ => true | None => false end.

Fixpoint set {V : Type} (k : string) (v : V) (m : t V) : t V :=
  match m with
  | [] => [(k, v)]
  | (k', v') :: r =>
      if String.eqb k k' then (k, v) :: r else (k', v') :: set k v r
  end.

Fixpoint delete {V : Type} (k : string) (m : t V) : t V :=
  match m with
  | [] => []
  | (k', v') :: r =>
      if String.eqb k k' then delete k r else (k', v') :: delete k r
  end.

Definition values {V : Type} (m : t V) : list V := map snd m.

Definition keys {V : Type} (m : t V) : list string := map fst m.

End JsMap.

(** ** Data *)

(** [LeanVersion] of the installer: the detected major version and, when
    the probe needs the user's attention, an error text. *)
Record LeanVersion : Type := mkLeanVersion {
  version : string;
  error : option string
}.

(** JavaScript truthiness of a string and of an optional string. *)
Definition truthy (s : string) : bool := negb (String.eqb s "").

Definition truthy_opt (o : option string) : bool :=
  match o with Some s => truthy s | None => false end.

(** A [LeanClient] object.  [cid] is the identity of the object ([===]
    compares it); [clientFolder] is what [getWorkspaceFolder()] returns,
    the string of the folder the client was constructed for. *)
Record LeanClient : Type := mkLeanClient {
  cid : nat;
  clientFolder : string
}.

Definition same_client (a b : LeanClient) : bool := Nat.eqb (cid a) (cid b).

Definition getWorkspaceFolder (c : LeanClient) : string := clientFolder c.

(** The four emitters of a [LeanClient] a handler can be attached to. *)
Inductive HandlerKind : Type :=
| DidChange | DidClose | Diagnostics | CustomNotification.

(** The [Disposable] returned when a handler is attached to an emitter of
    a client. *)
Record Handle : Type := mkHandle {
  hid : nat;
  hclient : LeanClient;
  hkind : HandlerKind;
  hmethod : string
}.

(** An [RpcSession]; [keepAliveInterval] is the timer of its heartbeat. *)
Record RpcSession : Type := mkRpcSession {
  sessClient : LeanClient;
  sessionId : string;
  sessUri : string;
  keepAliveInterval : nat
}.

(** What the two classes do to their collaborators, in the order they do
    it. *)
Inductive Effect : Type :=
| ENewClient (c : LeanClient)
| EDisposeClient (c : LeanClient)
| EStart (c : LeanClient)
| ERestart (c : LeanClient)
| EClientAdded (c : LeanClient)
| EClientRemoved (c : LeanClient)
| EOnServerFailed (c : LeanClient) (path : string)
| EOnProgressChanged (c : LeanClient)
| EOnRestarted (c : LeanClient)
| EAttach (h : Handle)
| EDisposeHandle (h : Handle)
| ESetInterval (timer : nat)
| EClearInterval (timer : nat)
| EShowError (msg : string)
| ELog (msg : string).

(** The fields of [LeanClientProvider] and of [InfoProvider], a counter for
    the identity of new objects, and the effects so far. *)
Record World : Type := mkWorld {
  versions : JsMap.t LeanVersion;
  clients : JsMap.t LeanClient;
  pending : JsMap.t bool;
  testing : JsMap.t bool;
  activeClient : option LeanClient;
  subscriptions : list LeanClient;
  webviewPanel : bool;
  serverNotifSubscriptions : JsMap.t (Z * list Handle);
  clientNotifSubscriptions : JsMap.t (Z * list Handle);
  rpcSessions : JsMap.t RpcSession;
  nextId : nat;
  trace : list Effect
}.

Definition emptyWorld : World :=
  mkWorld [] [] [] [] None [] false [] [] [] 0 [].

Definition with_versions (f : JsMap.t LeanVersion -> JsMap.t LeanVersion) (w : World) : World :=
  mkWorld (f (versions w)) (clients w) (pending w) (testing w) (activeClient w)
    (subscriptions w) (webviewPanel w) (serverNotifSubscriptions w)
    (clientNotifSubscriptions w) (rpcSessions w) (nextId w) (trace w).

Definition with_clients (f : JsMap.t LeanClient -> JsMap.t LeanClient) (w : World) : World :=
  mkWorld (versions w) (f (clients w)) (pending w) (testing w) (activeClient w)
    (subscriptions w) (webviewPanel w) (serverNotifSubscriptions w)
    (clientNotifSubscriptions w) (rpcSessions w) (nextId w) (trace w).

Definition with_pending (f : JsMap.t bool -> JsMap.t bool) (w : World) : World :=
  mkWorld (versions w) (clients w) (f (pending w)) (testing w) (activeClient w)
    (subscriptions w) (webviewPanel w) (serverNotifSubscriptions w)
    (clientNotifSubscriptions w) (rpcSessions w) (nextId w) (trace w).

Definition with_testing (f : JsMap.t bool -> JsMap.t bool) (w : World) : World :=
  mkWorld (versions w) (clients w) (pending w) (f (testing w)) (activeClient w)
    (subscriptions w) (webviewPanel w) (serverNotifSubscriptions w)
    (clientNotifSubscriptions w) (rpcSessions w) (nextId w) (trace w).

Definition with_activeClient (c : option LeanClient) (w : World) : World :=
  mkWorld (versions w) (clients w) (pending w) (testing w) c
    (subscriptions w) (webviewPanel w) (serverNotifSubscriptions w)
    (clientNotifSubscriptions w) (rpcSessions w) (nextId w) (trace w).

Definition with_subscriptions (f : list LeanClient -> list LeanClient) (w : World) : World :=
  mkWorld (versions w) (clients w) (pending w) (testing w) (activeClient w)
    (f (subscriptions w)) (webviewPanel w) (serverNotifSubscriptions w)
    (clientNotifSubscriptions w) (rpcSessions w) (nextId w) (trace w).

Definition with_webviewPanel (b : bool) (w : World) : World :=
  mkWorld (versions w) (clients w) (pending w) (testing w) (activeClient w)
    (subscriptions w) b (serverNotifSubscriptions w)
    (clientNotifSubscriptions w) (rpcSessions w) (nextId w) (trace w).

Definition with_serverNotif
    (f : JsMap.t (Z * list Handle) -> JsMap.t (Z * list Handle)) (w : World) : World :=
  mkWorld (versions w) (clients w) (pending w) (testing w) (activeClient w)
    (subscriptions w) (webviewPanel w) (f (serverNotifSubscriptions w))
    (clientNotifSubscriptions w) (rpcSessions w) (nextId w) (trace w).

Definition with_clientNotif
    (f : JsMap.t (Z * list Handle) -> JsMap.t (Z * list Handle)) (w : World) : World :=
  mkWorld (versions w) (clients w) (pending w) (testing w) (activeClient w)
    (subscriptions w) (webviewPanel w) (serverNotifSubscriptions w)
    (f (clientNotifSubscriptions w)) (rpcSessions w) (nextId w) (trace w).

Definition with_rpcSessions (f : JsMap.t RpcSession -> JsMap.t RpcSession) (w : World) : World :=
  mkWorld (versions w) (clients w) (pending w) (testing w) (activeClient w)
    (subscriptions w) (webviewPanel w) (serverNotifSubscriptions w)
    (clientNotifSubscriptions w) (f (rpcSessions w)) (nextId w) (trace w).

Definition with_nextId (n : nat) (w : World) : World :=
  mkWorld (versions w) (clients w) (pending w) (testing w) (activeClient w)
    (subscriptions w) (webviewPanel w) (serverNotifSubscriptions w)
    (clientNotifSubscriptions w) (rpcSessions w) n (trace w).

Definition emit (e : Effect) (w : World) : World :=
  mkWorld (versions w) (clients w) (pending w) (testing w) (activeClient w)
    (subscriptions w) (webviewPanel w) (serverNotifSubscriptions w)
    (clientNotifSubscriptions w) (rpcSessions w) (nextId w) (trace w ++ [e]).

(** ** Tasks *)

(** What an [await] waits for. *)
Inductive Request : Type :=
| TestLeanVersion (folder : string)   (* installer.testLeanVersion(folderUri) *)
| ClientStart (c : LeanClient)        (* client.start() *)
| ClientRestart (c : LeanClient)      (* client.restart() *)
| SendRequest (c : LeanClient) (method : string) (uri : string)
| Infoview (call : string)            (* a call into the webview *)
| Yield.                              (* the return of an awaited async function *)

(** What resumes it. *)
Inductive Response : Type :=
| RVersion (v : LeanVersion)
| RConnected (sessionId : string)
| RUnit
| RRejected (e : string).

Inductive Task (R : Type) : Type :=
| Ret (r : R)
| Throw (e : string)
| Get (k : World -> Task R)
| Put (w : World) (k : Task R)
| Await (q : Request) (k : Response -> Task R).

Arguments Ret {R} r.
Arguments Throw {R} e.
Arguments Get {R} k.
Arguments Put {R} w k.
Arguments Await {R} q k.

Fixpoint bind {A B : Type} (t : Task A) (f : A -> Task B) : Task B :=
  match t with
  | Ret a => f a
  | Throw e => Throw e
  | Get k => Get (fun w => bind (k w) f)
  | Put w k => Put w (bind k f)
  | Await q k => Await q (fun r => bind (k r) f)
  end.

(** [try { t } catch (e) { h e }] *)
Fixpoint try_catch {A : Type} (t : Task A) (h : string -> Task A) : Task A :=
  match t with
  | Ret a => Ret a
  | Throw e => h e
  | Get k => Get (fun w => try_catch (k w) h)
  | Put w k => Put w (try_catch k h)
  | Await q k => Await q (fun r => try_catch (k r) h)
  end.

Declare Scope task_scope.
Delimit Scope task_scope with task.
Notation "x <- t ;; k" := (bind t (fun x => k))
  (at level 61, t at next level, right associativity) : task_scope.
Notation "t ;; k" := (bind t (fun _ => k))
  (at level 61, right associativity) : task_scope.
Open Scope task_scope.

Definition get : Task World := Get (fun w => Ret w).
Definition modify (f : World -> World) : Task unit := Get (fun w => Put (f w) (Ret tt)).
Definition effect (e : Effect) : Task unit := modify (emit e).
Definition console_log (msg : string) : Task unit := effect (ELog msg).

(** A new object identity. *)
Definition fresh : Task nat :=
  Get (fun w => Put (with_nextId (S (nextId w)) w) (Ret (nextId w))).

(** [await] of a promise made outside these classes. *)
Definition await (q : Request) : Task Response := Await q (fun r => Ret r).

(** [await f(...)] for an [async] function [f] of these classes: the body
    runs, and the caller continues one turn after the body has returned or
    thrown. *)
Definition call {A : Type} (body : Task A) : Task A :=
  try_catch (a <- body ;; Await Yield (fun _ => Ret a))
            (fun e => Await Yield (fun _ => Throw e)).

Fixpoint forEach {A : Type} (l : list A) (body : A -> Task unit) : Task unit :=
  match l with
  | [] => Ret tt
  | a :: r => body a ;; forEach r body
  end.

(** How a segment ends. *)
Inductive Outcome (R : Type) : Type :=
| Finished (r : R)
| Failed (e : string)
| Suspended (q : Request) (k : Response -> Task R).

Arguments Finished {R} r.
Arguments Failed {R} e.
Arguments Suspended {R} q k.

(** One uninterrupted segment: up to the return, the throw, or the next
    [await]. *)
Fixpoint run {R : Type} (t : Task R) (w : World) : World * Outcome R :=
  match t with
  | Ret r => (w, Finished r)
  | Throw e => (w, Failed e)
  | Get k => run (k w) w
  | Put w' k => run k w'
  | Await q k => (w, Suspended q k)
  end.

(** A call driven through its [await]s.  Each element of [answers] settles
    one awaited promise: the response, and what the rest of the program did
    to the world while the call was suspended.  The unused answers are
    returned. *)
Definition Answer : Type := (Response * (World -> World))%type.

Fixpoint drive {R : Type} (t : Task R) (answers : list Answer) (w : World)
  : World * Outcome R * list Answer :=
  match t with
  | Ret r => (w, Finished r, answers)
  | Throw e => (w, Failed e, answers)
  | Get k => drive (k w) answers w
  | Put w' k => drive k answers w'
  | Await q k =>
      match answers with
      | [] => (w, Suspended q k, [])
      | (r, env) :: rest => drive (k r) rest (env w)
      end
  end.

(** ** [LeanClientProvider]: lookups *)

Definition getClients (w : World) : list LeanClient := JsMap.values (clients w).

(** The loop of [findClient]: the first client, in the order of
    [getClients], whose folder string starts [path]. *)
Fixpoint findClient_loop (path : string) (cs : list LeanClient) : option LeanClient :=
  match cs with
  | [] => None
  | client :: rest =>
      if String.prefix (getWorkspaceFolder client) path then Some client
      else findClient_loop path rest
  end.

Definition findClient (path : string) (w : World) : option LeanClient :=
  if truthy path then findClient_loop path (getClients w) else None.

(** ** [RpcSession] and [InfoProvider] *)

(** [new RpcSession(client, sessionId, uri)] starts the heartbeat timer. *)
Definition newRpcSession (client : LeanClient) (sessionId uri : string) : Task RpcSession :=
  timer <- fresh ;;
  effect (ESetInterval timer) ;;
  Ret (mkRpcSession client sessionId uri timer).

Definition RpcSession_dispose (s : RpcSession) : Task unit :=
  effect (EClearInterval (keepAliveInterval s)).

(** [client.didChange(cb)], [client.didClose(cb)], [client.diagnostics(cb)]
    and [client.customNotification(cb)] attach a handler and return its
    [Disposable]. *)
Definition attach (kind : HandlerKind) (client : LeanClient) (method : string) : Task Handle :=
  id <- fresh ;;
  let h := mkHandle id client kind method in
  effect (EAttach h) ;;
  Ret h.

Definition subscribeDidChangeNotification := attach DidChange.
Definition subscribeDidCloseNotification := attach DidClose.
Definition subscribeDiagnosticsNotification := attach Diagnostics.
Definition subscribeCustomNotification := attach CustomNotification.

Definition Handle_dispose (h : Handle) : Task unit := effect (EDisposeHandle h).

(** [for (const client of getClients()) subscriptions.push(sub(client, method))] *)
Fixpoint subscribeAll (sub : LeanClient -> string -> Task Handle)
    (cs : list LeanClient) (method : string) : Task (list Handle) :=
  match cs with
  | [] => Ret []
  | client :: rest =>
      h <- sub client method ;;
      hs <- subscribeAll sub rest method ;;
      Ret (h :: hs)
  end.

Definition subscribeServerNotifications (method : string) : Task unit :=
  this <- get ;;
  match JsMap.get method (serverNotifSubscriptions this) with
  | Some (count, h) =>
      modify (with_serverNotif (JsMap.set method ((count + 1)%Z, h)))
  | None =>
      if String.eqb method "textDocument/publishDiagnostics" then
        subscriptions <- subscribeAll subscribeDiagnosticsNotification (getClients this) method ;;
        modify (with_serverNotif (JsMap.set method (1%Z, subscriptions)))
      else if String.prefix "$" method then
        subscriptions <- subscribeAll subscribeCustomNotification (getClients this) method ;;
        modify (with_serverNotif (JsMap.set method (1%Z, subscriptions)))
      else
        Throw ("subscription to " ++ method ++ " server notifications not implemented")
  end.

Definition unsubscribeServerNotifications (method : string) : Task unit :=
  this <- get ;;
  match JsMap.get method (serverNotifSubscriptions this) with
  | None =>
      Throw ("trying to unsubscribe from '" ++ method ++ "' with no active subscriptions")
  | Some (count, subscriptions) =>
      if (count =? 1)%Z then
        forEach subscriptions Handle_dispose ;;
        modify (with_serverNotif (JsMap.delete method))
      else
        modify (with_serverNotif (JsMap.set method ((count - 1)%Z, subscriptions)))
  end.

Definition subscribeClientNotifications (method : string) : Task unit :=
  this <- get ;;
  match JsMap.get method (clientNotifSubscriptions this) with
  | Some (count, d) =>
      modify (with_clientNotif (JsMap.set method ((count + 1)%Z, d)))
  | None =>
      if String.eqb method "textDocument/didChange" then
        subscriptions <- subscribeAll subscribeDidChangeNotification (getClients this) method ;;
        modify (with_clientNotif (JsMap.set method (1%Z, subscriptions)))
      else if String.eqb method "textDocument/didClose" then
        subscriptions <- subscribeAll subscribeDidCloseNotification (getClients this) method ;;
        modify (with_clientNotif (JsMap.set method (1%Z, subscriptions)))
      else
        Throw ("Subscription to '" ++ method ++ "' client notifications not implemented")
  end.

Definition unsubscribeClientNotifications (method : string) : Task unit :=
  this <- get ;;
  match JsMap.get method (clientNotifSubscriptions this) with
  | None =>
      Throw ("trying to unsubscribe from '" ++ method ++ "' with no active subscriptions")
  | Some (count, subscriptions) =>
      if (count =? 1)%Z then
        forEach subscriptions Handle_dispose ;;
        modify (with_clientNotif (JsMap.delete method))
      else
        modify (with_clientNotif (JsMap.set method ((count - 1)%Z, subscriptions)))
  end.

(** [rpcConnect]: the connect request and the session id of its answer. *)
Definition rpcConnect (client : LeanClient) (uri : string) : Task string :=
  result <- await (SendRequest client "$/lean/rpc/connect" uri) ;;
  match result with
  | RConnected sessionId => Ret sessionId
  | RRejected e => Throw e
  | _ => Throw "TypeError"
  end.

Definition createRpcSession (uri : string) : Task string :=
  this <- get ;;
  match findClient uri this with
  | None => Ret ""
  | Some client =>
      sessionId <- call (rpcConnect client uri) ;;
      session <- newRpcSession client sessionId uri ;;
      this <- get ;;
      if negb (webviewPanel this) then
        RpcSession_dispose session ;;
        Throw "infoview disconnect while connecting to RPC session"
      else
        modify (with_rpcSessions (JsMap.set sessionId session)) ;;
        Ret sessionId
  end.

Definition closeRpcSession (sessionId : string) : Task unit :=
  this <- get ;;
  match JsMap.get sessionId (rpcSessions this) with
  | Some session =>
      modify (with_rpcSessions (JsMap.delete sessionId)) ;;
      RpcSession_dispose session
  | None => Ret tt
  end.

(** The loop of [clearRpcSessions]: [client = None] is the [null]
    argument.  The result is the content of [remaining]. *)
Fixpoint clearRpcSessions_loop (client : option LeanClient)
    (sessions : list (string * RpcSession)) (remaining : JsMap.t RpcSession)
  : Task (JsMap.t RpcSession) :=
  match sessions with
  | [] => Ret remaining
  | (sessionId, sess) :: rest =>
      if match client with
         | None => true
         | Some c => same_client (sessClient sess) c
         end
      then RpcSession_dispose sess ;; clearRpcSessions_loop client rest remaining
      else clearRpcSessions_loop client rest (JsMap.set sessionId sess remaining)
  end.

Definition clearRpcSessions (client : option LeanClient) : Task unit :=
  this <- get ;;
  remaining <- clearRpcSessions_loop client (rpcSessions this) JsMap.empty ;;
  modify (with_rpcSessions (fun _ => remaining)).

(** [subscriptions.push(h)] on the array stored under [method]: the array
    is shared with the table entry, so the push shows in the table. *)
Definition push_handle (h : Handle) (entry : Z * list Handle) : Z * list Handle :=
  (fst entry, (snd entry ++ [h])%list).

Definition push_in (method : string) (h : Handle) (m : JsMap.t (Z * list Handle))
  : JsMap.t (Z * list Handle) :=
  match JsMap.get method m with
  | Some entry => JsMap.set method (push_handle h entry) m
  | None => m
  end.

(** The two loops of [onClientRestarted]. *)
Fixpoint resubscribeClientNotifs (client : LeanClient) (methods : list string) : Task unit :=
  match methods with
  | [] => Ret tt
  | method :: rest =>
      (if String.eqb method "textDocument/didChange" then
         h <- subscribeDidChangeNotification client method ;;
         modify (with_clientNotif (push_in method h))
       else if String.eqb method "textDocument/didClose" then
         h <- subscribeDidCloseNotification client method ;;
         modify (with_clientNotif (push_in method h))
       else Ret tt) ;;
      resubscribeClientNotifs client rest
  end.

Fixpoint resubscribeServerNotifs (client : LeanClient) (methods : list string) : Task unit :=
  match methods with
  | [] => Ret tt
  | method :: rest =>
      (if String.eqb method "textDocument/publishDiagnostics" then
         h <- subscribeDiagnosticsNotification client method ;;
         modify (with_serverNotif (push_in method h))
       else if String.prefix "$" method then
         h <- subscribeCustomNotification client method ;;
         modify (with_serverNotif (push_in method h))
       else Ret tt) ;;
      resubscribeServerNotifs client rest
  end.

(** [onClientRestarted].  [initialized] tells whether the client has an
    [initializeResult].  [autoOpen] and the four [send...] helpers talk to
    the webview only and touch neither table; they stand here as calls
    into the webview. *)
Definition onClientRestarted (client : LeanClient) (initialized : bool) : Task unit :=
  (if initialized then _ <- await (Infoview "serverRestarted") ;; Ret tt else Ret tt) ;;
  this <- get ;;
  resubscribeClientNotifs client (JsMap.keys (clientNotifSubscriptions this)) ;;
  this <- get ;;
  resubscribeServerNotifs client (JsMap.keys (serverNotifSubscriptions this)) ;;
  _ <- await (Infoview "sendPosition") ;;
  _ <- await (Infoview "sendConfig") ;;
  _ <- await (Infoview "sendDiagnostics") ;;
  _ <- await (Infoview "sendProgress") ;;
  Ret tt.

(** The listener [onClientAdded] attaches to [client.restarted]. *)
Definition restarted_listener (client : LeanClient) (initialized : bool) : Task unit :=
  clearRpcSessions (Some client) ;;
  call (onClientRestarted client initialized).

Definition onClientAdded (client : LeanClient) : Task unit :=
  console_log ("Adding client for workspace: " ++ getWorkspaceFolder client) ;;
  effect (EOnRestarted client).

(** [onClientRemoved] has an empty body. *)
Definition onClientRemoved (client : LeanClient) : Task unit := Ret tt.

Definition clearNotificationHandlers : Task unit :=
  this <- get ;;
  forEach (JsMap.values (clientNotifSubscriptions this))
          (fun entry => forEach (snd entry) Handle_dispose) ;;
  modify (with_clientNotif (fun _ => JsMap.empty)) ;;
  this <- get ;;
  forEach (JsMap.values (serverNotifSubscriptions this))
          (fun entry => forEach (snd entry) Handle_dispose) ;;
  modify (with_serverNotif (fun _ => JsMap.empty)).

(** The [onDidDispose] listener of the webview panel. *)
Definition webviewPanel_onDidDispose : Task unit :=
  clearNotificationHandlers ;;
  modify (with_webviewPanel false) ;;
  clearRpcSessions None.

(** ** [LeanClientProvider] *)

(** [versionInfo && versionInfo.version && versionInfo.version !== '4'] *)
Definition isForeign (versionInfo : option LeanVersion) : bool :=
  match versionInfo with
  | Some v => truthy (version v) && negb (String.eqb (version v) "4")
  | None => false
  end.

(** [versionInfo && !versionInfo.error] *)
Definition readyToStart (versionInfo : option LeanVersion) : bool :=
  match versionInfo with
  | Some v => negb (truthy_opt (error v))
  | None => false
  end.

(** A promise that resolves to nothing, or rejects. *)
Definition await_void (q : Request) : Task unit :=
  r <- await q ;;
  match r with
  | RRejected e => Throw e
  | _ => Ret tt
  end.

(** [installer.testLeanVersion(folderUri)], by the string of the folder. *)
Definition testLeanVersion (folder : string) : Task LeanVersion :=
  r <- await (TestLeanVersion folder) ;;
  match r with
  | RVersion v => Ret v
  | RRejected e => Throw e
  | _ => Throw "TypeError"
  end.

(** [clientAddedEmitter.fire(client)] runs the listener of [InfoProvider]. *)
Definition clientAdded_fire (client : LeanClient) : Task unit :=
  effect (EClientAdded client) ;;
  onClientAdded client.

Definition clientRemoved_fire (client : LeanClient) : Task unit :=
  effect (EClientRemoved client) ;;
  onClientRemoved client.

(** The callback [ensureClient] gives to [client.serverFailed]. *)
Definition serverFailed_callback (path err : string) : Task unit :=
  this <- get ;;
  let cached := JsMap.get path (clients this) in
  modify (with_clients (JsMap.delete path)) ;;
  match cached with
  | Some c => effect (EDisposeClient c)
  | None => Ret tt
  end ;;
  effect (EShowError err).

(** Lines 215-226 of [ensureClient]: the guard is set, the client is made
    and registered. *)
Definition ensureClient_create (path : string) : Task LeanClient :=
  modify (with_pending (JsMap.set path true)) ;;
  console_log ("Creating LeanClient for " ++ path) ;;
  id <- fresh ;;
  let client := mkLeanClient id path in
  effect (ENewClient client) ;;
  modify (with_subscriptions (fun l => (l ++ [client])%list)) ;;
  modify (with_clients (JsMap.set path client)) ;;
  Ret client.

(** Lines 231-260 of [ensureClient], once [versionInfo] is known.  [false]
    is the early return of the foreign workspace, [true] falls through to
    the end of the function. *)
Definition ensureClient_setup (path : string) (client : LeanClient)
    (versionInfo : option LeanVersion) : Task bool :=
  if isForeign versionInfo then
    console_log ("Lean4 extension ignoring workspace '" ++ path
                 ++ "' because it is not a Lean 4 workspace.") ;;
    modify (with_pending (JsMap.delete path)) ;;
    modify (with_clients (JsMap.delete path)) ;;
    effect (EDisposeClient client) ;;
    Ret false
  else
    effect (EOnServerFailed client path) ;;
    effect (EOnProgressChanged client) ;;
    modify (with_pending (JsMap.delete path)) ;;
    clientAdded_fire client ;;
    (if readyToStart versionInfo then
       effect (EStart client) ;;
       await_void (ClientStart client)
     else Ret tt) ;;
    Ret true.

(** The world once [ensureClient_create] has run. *)
Definition registered (path : string) (w : World) : World :=
  fst (run (ensureClient_create path) w).

Section Provider.

(** The editor's [Uri] and [findLeanPackageRoot] of [projectInfo.ts] are
    not part of these classes.  [findLeanPackageRoot] returns the
    workspace folder, the package folder and the toolchain file. *)
Variable Uri : Type.
Variable toString : Uri -> string.
Variable scheme : Uri -> string.
Variable untitled : Uri.
Variable findLeanPackageRoot : Uri -> option Uri * option Uri * option Uri.

(** [folder ? folder : Uri.from({scheme: 'untitled'})] *)
Definition folderOf (uri : Uri) : Uri :=
  let '(_, folder, _) := findLeanPackageRoot uri in
  match folder with
  | Some f => f
  | None => untitled
  end.

Definition getLeanVersion (uri : Uri) : Task (option LeanVersion) :=
  let folderUri := folderOf uri in
  let path := toString folderUri in
  this <- get ;;
  if JsMap.has path (versions this) then
    Ret (JsMap.get path (versions this))
  else
    versionInfo <- (if String.eqb (scheme uri) "untitled"
                    then Ret (mkLeanVersion "4" None)
                    else testLeanVersion (toString folderUri)) ;;
    modify (with_versions (JsMap.set path versionInfo)) ;;
    Ret (Some versionInfo).

(** [if (!versionInfo) versionInfo = await this.getLeanVersion(folderUri)] *)
Definition resolveVersion (versionInfo : option LeanVersion) (folderUri : Uri)
  : Task (option LeanVersion) :=
  match versionInfo with
  | Some v => Ret (Some v)
  | None => call (getLeanVersion folderUri)
  end.

Definition ensureClient (uri : Uri) (versionInfo : option LeanVersion)
  : Task (bool * option LeanClient) :=
  let folderUri := folderOf uri in
  let path := toString folderUri in
  this <- get ;;
  let cachedClient := JsMap.has path (clients this) in
  let client := if cachedClient then JsMap.get path (clients this) else None in
  match client with
  | None =>
      if negb (JsMap.has path (pending this)) then
        client <- ensureClient_create path ;;
        versionInfo <- resolveVersion versionInfo folderUri ;;
        continue <- ensureClient_setup path client versionInfo ;;
        if continue then
          modify (with_activeClient (Some client)) ;;
          Ret (cachedClient, Some client)
        else Ret (false, None)
      else
        modify (with_activeClient None) ;;
        Ret (cachedClient, None)
  | Some c =>
      modify (with_activeClient (Some c)) ;;
      Ret (cachedClient, Some c)
  end.

(** The listener of [workspace.onDidChangeWorkspaceFolders], for the
    removed folders. *)
Definition onDidChangeWorkspaceFolders (removed : list Uri) : Task unit :=
  forEach removed (fun folder =>
    let path := toString folder in
    this <- get ;;
    match JsMap.get path (clients this) with
    | Some client =>
        modify (with_clients (JsMap.delete path)) ;;
        modify (with_versions (JsMap.delete path)) ;;
        effect (EDisposeClient client) ;;
        clientRemoved_fire client
    | None => Ret tt
    end).

(** The listener of [installer.installChanged]. *)
Definition installChanged (uri : Uri) : Task unit :=
  let path := toString uri in
  this <- get ;;
  if JsMap.has path (testing this) then
    console_log ("Blocking re-entrancy on " ++ path)
  else
    modify (with_testing (JsMap.set path true)) ;;
    try_catch
      (let packageUri := folderOf uri in
       versionInfo <- testLeanVersion (toString packageUri) ;;
       if String.eqb (version versionInfo) "4" then
         r <- call (ensureClient uri (Some versionInfo)) ;;
         match r with
         | (true, Some client) =>
             effect (ERestart client) ;;
             await_void (ClientRestart client)
         | _ => Ret tt
         end
       else if truthy_opt (error versionInfo) then
         console_log ("Lean version not ok: " ++
                      match error versionInfo with Some e => e | None => "" end)
       else Ret tt)
      (fun e => console_log ("Exception checking lean version: " ++ e)) ;;
    modify (with_testing (JsMap.delete path)).

End Provider.

(** ** Longest-prefix match, as the specification words it *)

Definition matches (path : string) (c : LeanClient) : bool :=
  String.prefix (getWorkspaceFolder c) path.

(** [c] is an active connection whose root is a prefix of [path], and no
    active connection with a longer root is. *)
Definition longest_match (path : string) (w : World) (c : LeanClient) : Prop :=
  In c (getClients w) /\ matches path c = true /\
  forall c', In c' (getClients w) -> matches path c' = true ->
    String.length (getWorkspaceFolder c') <= String.length (getWorkspaceFolder c).

(** [c] is the first connection, in registry order, whose root is a prefix
    of [path]. *)
Definition first_match (path : string) (w : World) (c : LeanClient) : Prop :=
  exists before after,
    getClients w = (before ++ c :: after)%list /\
    matches path c = true /\
    forall c', In c' before -> matches path c' = false.

(** ** A workspace with two nested packages, for the concrete runs *)
Module Ws.

Definition Uri : Type := string.
Definition toString (u : Uri) : string := u.
Definition scheme (u : Uri) : string :=
  if String.prefix "untitled:" u then "untitled" else "file".
Definition untitled : Uri := "untitled:".

Definition ws : Uri := "file:///ws".
Definition foo : Uri := "file:///ws/Foo".

(** The package of a document: [/ws/Foo] owns what lies under it, [/ws]
    the rest of the workspace folder. *)
Definition findLeanPackageRoot (u : Uri) : option Uri * option Uri * option Uri :=
  if String.prefix "file:///ws/Foo" u then
    (Some ws, Some foo, Some "file:///ws/Foo/lean-toolchain")
  else if String.prefix "file:///ws" u then
    (Some ws, Some ws, Some "file:///ws/lean-toolchain")
  else (None, None, None).

Definition ensureClient := ensureClient Uri toString scheme untitled findLeanPackageRoot.
Definition installChanged := installChanged Uri toString scheme untitled findLeanPackageRoot.
Definition onDidChangeWorkspaceFolders := onDidChangeWorkspaceFolders Uri toString.

Definition lean4 : LeanVersion := mkLeanVersion "4" None.
Definition lean3 : LeanVersion := mkLeanVersion "3" None.
Definition lean4_noToolchain : LeanVersion := mkLeanVersion "4" (Some "no default toolchain").

(** An answer that leaves the world as it is. *)
Definition quiet (r : Response) : Answer := (r, fun w => w).

(** The world after a call driven through [answers]. *)
Definition after {R : Type} (t : Task R) (answers : list Answer) (w : World) : World :=
  fst (fst (drive t answers w)).

(** A document of [/ws] is opened, then one of [/ws/Foo]; both probes find
    Lean 4 and both servers start. *)
Definition opened_ws : World :=
  after (ensureClient "file:///ws/Main.lean" None)
        [quiet (RVersion lean4); quiet RUnit; quiet RUnit] emptyWorld.

Definition opened_nested : World :=
  after (ensureClient "file:///ws/Foo/Bar.lean" None)
        [quiet (RVersion lean4); quiet RUnit; quiet RUnit] opened_ws.

Definition client_ws : LeanClient := mkLeanClient 0 "file:///ws".
Definition client_foo : LeanClient := mkLeanClient 1 "file:///ws/Foo".

End Ws.

(** ** Reference counts of the notification tables *)

(** Several effects in a row. *)
Definition emits (es : list Effect) (w : World) : World :=
  mkWorld (versions w) (clients w) (pending w) (testing w) (activeClient w)
    (subscriptions w) (webviewPanel w) (serverNotifSubscriptions w)
    (clientNotifSubscriptions w) (rpcSessions w) (nextId w) (trace w ++ es).

(** The reference count of [method]: the count of its entry, 0 without
    entry. *)
Definition refCount (table : JsMap.t (Z * list Handle)) (method : string) : Z :=
  match JsMap.get method table with
  | Some (count, _) => count
  | None => 0%Z
  end.

Definition handlersOf (table : JsMap.t (Z * list Handle)) (method : string) : list Handle :=
  match JsMap.get method table with
  | Some (_, hs) => hs
  | None => []
  end.

(** The invariant of a table: the reference count of a method is positive
    if and only if the method has an entry. *)
Definition counted (table : JsMap.t (Z * list Handle)) : Prop :=
  forall method, (0 < refCount table method)%Z <-> JsMap.has method table = true.

(** What the specification asks of an [unsubscribe] function working on
    [table]: above count 1 the count goes down by one and the handlers
    stay; at count 1 every handle is disposed and the entry deleted;
    without entry the call fails and changes nothing. *)
Definition unsubscribe_spec
    (table : World -> JsMap.t (Z * list Handle))
    (unsubscribe : string -> Task unit) : Prop :=
  forall (method : string) (w : World),
    let w' := fst (run (unsubscribe method) w) in
    let outcome := snd (run (unsubscribe method) w) in
    (forall n hs,
       JsMap.get method (table w) = Some (n, hs) -> (1 < n)%Z ->
       outcome = Finished tt /\
       refCount (table w') method = (n - 1)%Z /\
       handlersOf (table w') method = hs /\
       trace w' = trace w) /\
    (forall hs,
       JsMap.get method (table w) = Some (1%Z, hs) ->
       outcome = Finished tt /\
       JsMap.has method (table w') = false /\
       refCount (table w') method = 0%Z /\
       trace w' = (trace w ++ map EDisposeHandle hs)%list) /\
    (JsMap.get method (table w) = None ->
       outcome = Failed ("trying to unsubscribe from '" ++ method
                         ++ "' with no active subscriptions") /\
       w' = w).

(** [op] keeps the invariant of [table]. *)
Definition keeps_counted
    (table : World -> JsMap.t (Z * list Handle))
    (op : string -> Task unit) : Prop :=
  forall (method : string) (w : World),
    counted (table w) -> counted (table (fst (run (op method) w))).

(** ** Interleaved calls of [ensureClient] *)

Definition isNewClientFor (root : string) (e : Effect) : bool :=
  match e with
  | ENewClient c => String.eqb (clientFolder c) root
  | _ => false
  end.

(** How many [LeanClient] objects were made for [root]. *)
Definition createdFor (root : string) (w : World) : nat :=
  length (filter (isNewClientFor root) (trace w)).

(** A response that is not a version of a foreign major. *)
Definition notForeign (r : Response) : Prop :=
  forall v, r = RVersion v -> isForeign (Some v) = false.

Section Interleaving.

Variable Uri : Type.
Variable toString : Uri -> string.
Variable scheme : Uri -> string.
Variable untitled : Uri.
Variable findLeanPackageRoot : Uri -> option Uri * option Uri * option Uri.

(** What happens next: a document is opened, for which [didOpenEditor]
    calls [ensureClient(document.uri, undefined)], or the promise the
    [i]-th call waits for settles and the call runs its next segment. *)
Inductive Event : Type :=
| Open (uri : Uri)
| Settle (i : nat) (r : Response).

Record Call : Type := mkCall {
  callUri : Uri;
  callState : Outcome (bool * option LeanClient)
}.

Record Sched : Type := mkSched {
  world : World;
  calls : list Call
}.

Fixpoint replace_nth {A : Type} (i : nat) (a : A) (l : list A) {struct l} : list A :=
  match l, i with
  | [], _ => []
  | _ :: r, O => a :: r
  | x :: r, S j => x :: replace_nth j a r
  end.

Definition step (s : Sched) (ev : Event) : Sched :=
  match ev with
  | Open uri =>
      let '(w', o) :=
        run (ensureClient Uri toString scheme untitled findLeanPackageRoot uri None)
            (world s) in
      mkSched w' (calls s ++ [mkCall uri o])
  | Settle i r =>
      match nth_error (calls s) i with
      | Some (mkCall uri (Suspended _ k)) =>
          let '(w', o) := run (k r) (world s) in
          mkSched w' (replace_nth i (mkCall uri o) (calls s))
      | _ => s
      end
  end.

Definition exec (events : list Event) (s : Sched) : Sched :=
  fold_left step events s.

(** The root string [ensureClient] computes for [uri]. *)
Definition rootOf (uri : Uri) : string :=
  toString (folderOf Uri untitled findLeanPackageRoot uri).

(** The [i]-th call has returned [r]. *)
Definition returned (s : Sched) (i : nat) (uri : Uri) (r : bool * option LeanClient) : Prop :=
  nth_error (calls s) i = Some (mkCall uri (Finished r)).

End Interleaving.

Arguments Open {Uri} uri.
Arguments Settle {Uri} i r.

(** ** Safety of a task under interleaving

    [Inv] holds whenever control is handed over, [Rely] relates the world
    at two such moments, [ok] is what a settled promise may carry.  [Post]
    and [EPost] see the world at the start of the current segment and the
    world now. *)
Section Safe.

Variable Inv : World -> Prop.
Variable Rely : World -> World -> Prop.
Variable ok : Response -> Prop.

Fixpoint safe {R : Type} (Post : R -> World -> World -> Prop)
    (EPost : string -> World -> World -> Prop)
    (t : Task R) (w0 w : World) : Prop :=
  match t with
  | Ret r => Post r w0 w
  | Throw e => EPost e w0 w
  | Get k => safe Post EPost (k w) w0 w
  | Put w' k => safe Post EPost k w0 w'
  | Await q k =>
      Inv w /\ Rely w0 w /\
      forall r w', ok r -> Inv w' -> Rely w w' -> safe Post EPost (k r) w' w'
  end.

End Safe.

(** What every interleaving keeps, as long as no probe reports a foreign
    version: a root under the guard has its connection, the cached
    versions are not foreign, a root without connection never had a client
    made, and no root had two. *)
Record RegistryInv (w : World) : Prop := mkRegistryInv {
  inv_pending : forall root,
    JsMap.has root (pending w) = true -> JsMap.has root (clients w) = true;
  inv_versions : forall path v,
    JsMap.get path (versions w) = Some v -> isForeign (Some v) = false;
  inv_absent : forall root,
    JsMap.has root (clients w) = false -> createdFor root w = 0;
  inv_once : forall root, createdFor root w <= 1
}.

(** The registry only grows. *)
Definition RegistryRely (w w' : World) : Prop :=
  forall root c,
    JsMap.get root (clients w) = Some c -> JsMap.get root (clients w') = Some c.

(** The call for [root] returned the connection the registry holds. *)
Definition returnsRegistered (root : string) (r : bool * option LeanClient) (w : World) : Prop :=
  exists c, snd r = Some c /\ JsMap.get root (clients w) = Some c.

(** What a call of [ensureClient] for [root] owes when it returns and when
    it throws. *)
Definition callPost (root : string) (r : bool * option LeanClient) (w0 w : World) : Prop :=
  RegistryInv w /\ RegistryRely w0 w /\ returnsRegistered root r w.

Definition callEPost (e : string) (w0 w : World) : Prop :=
  RegistryInv w /\ RegistryRely w0 w.

(** The same for a step inside the call that made [c] for [root]: the
    registry still holds [c]. *)
Definition holds (root : string) (c : LeanClient) (w : World) : Prop :=
  JsMap.get root (clients w) = Some c.

Definition stepPost {A : Type} (root : string) (c : LeanClient) (Q : A -> Prop)
    (a : A) (w0 w : World) : Prop :=
  RegistryInv w /\ RegistryRely w0 w /\ holds root c w /\ Q a.

Section InterleavingInv.

Variable Uri : Type.
Variable toString : Uri -> string.
Variable untitled : Uri.
Variable findLeanPackageRoot : Uri -> option Uri * option Uri * option Uri.

(** What is known of a call in world [w]: a returned call returned the
    connection the registry holds for its root; a suspended call is safe
    to resume in every later world. *)
Definition callOk (w : World) (call : Call Uri) : Prop :=
  let root := rootOf Uri toString untitled findLeanPackageRoot (callUri Uri call) in
  match callState Uri call with
  | Finished r => returnsRegistered root r w
  | Failed _ => True
  | Suspended _ k =>
      exists ws,
        RegistryRely ws w /\
        forall r w', notForeign r -> RegistryInv w' -> RegistryRely ws w' ->
          safe RegistryInv RegistryRely notForeign (callPost root) callEPost (k r) w' w'
  end.

Definition SchedInv (s : Sched Uri) : Prop :=
  RegistryInv (world Uri s) /\ Forall (callOk (world Uri s)) (calls Uri s).

End InterleavingInv.

(** No settled promise of the run carries a foreign version. *)
Definition noForeign {Uri : Type} (events : list (Event Uri)) : Prop :=
  forall i r, In (Settle i r) events -> notForeign r.

Module WsRuns.

Definition start : Sched Ws.Uri := mkSched Ws.Uri emptyWorld [].

Definition exec := exec Ws.Uri Ws.toString Ws.scheme Ws.untitled Ws.findLeanPackageRoot.

(** Two documents of a Lean 3 package are opened one after the other. *)
Definition lean3_twice : list (Event Ws.Uri) :=
  [Open "file:///ws/Main.lean"; Settle 0 (RVersion Ws.lean3); Settle 0 RUnit;
   Open "file:///ws/Lib.lean"].

(** Two documents of a Lean 4 package are opened while the probe of the
    first is in flight. *)
Definition lean4_twice : list (Event Ws.Uri) :=
  [Open "file:///ws/Main.lean"; Open "file:///ws/Lib.lean";
   Settle 0 (RVersion Ws.lean4); Settle 0 RUnit; Settle 0 RUnit].

End WsRuns.

(** ** Handlers attached to a connection *)

Definition attached (w : World) : list Handle :=
  flat_map (fun e => match e with EAttach h => [h] | _ => [] end) (trace w).

Definition handleDisposed (h : Handle) (w : World) : bool :=
  existsb (fun e => match e with
                    | EDisposeHandle h' => Nat.eqb (hid h') (hid h)
                    | _ => false
                    end) (trace w).

(** The handlers of [method] attached to [c] and not disposed. *)
Definition installedOn (method : string) (c : LeanClient) (w : World) : list Handle :=
  filter (fun h => same_client (hclient h) c && String.eqb (hmethod h) method
                   && negb (handleDisposed h w))
         (attached w).

Definition timerCleared (timer : nat) (w : World) : bool :=
  existsb (fun e => match e with
                    | EClearInterval t => Nat.eqb t timer
                    | _ => false
                    end) (trace w).

Definition clientDisposed (c : LeanClient) (w : World) : bool :=
  existsb (fun e => match e with
                    | EDisposeClient c' => same_client c' c
                    | _ => false
                    end) (trace w).

(** ** The infoview at work in the workspace [Ws] *)
Module InfoRuns.

Definition fileProgress : string := "$/lean/fileProgress".

Definition quiet6 : list Answer :=
  [Ws.quiet RUnit; Ws.quiet RUnit; Ws.quiet RUnit;
   Ws.quiet RUnit; Ws.quiet RUnit; Ws.quiet RUnit].

(** The connection of [/ws] has started, which fires [restarted] for the
    first time, and the panel is open. *)
Definition panel_open : World :=
  with_webviewPanel true
    (Ws.after (restarted_listener Ws.client_ws true) quiet6 Ws.opened_ws).

(** The infoview subscribes to the progress notifications. *)
Definition subscribed : World :=
  Ws.after (subscribeServerNotifications fileProgress) [] panel_open.

(** The server of [/ws] is restarted, once and once more. *)
Definition restarted_once : World :=
  Ws.after (restarted_listener Ws.client_ws true) quiet6 subscribed.

Definition restarted_twice : World :=
  Ws.after (restarted_listener Ws.client_ws true) quiet6 restarted_once.

(** The infoview opens an RPC session for a document of [/ws]. *)
Definition session_open : World :=
  Ws.after (createRpcSession "file:///ws/Main.lean")
           [Ws.quiet (RConnected "session-1"); Ws.quiet RUnit] panel_open.

Definition session1 : RpcSession :=
  mkRpcSession Ws.client_ws "session-1" "file:///ws/Main.lean" 1.

(** The folder [/ws] is removed from the workspace. *)
Definition folder_removed : World :=
  Ws.after (Ws.onDidChangeWorkspaceFolders [Ws.ws]) [] session_open.

(** The server of [/ws] fails. *)
Definition server_failed : World :=
  Ws.after (serverFailed_callback "file:///ws" "server crashed") [] session_open.

(** The server of [/ws] is restarted. *)
Definition session_restarted : World :=
  Ws.after (restarted_listener Ws.client_ws true) quiet6 session_open.

End InfoRuns.

(** ** Inputs of the concrete instances *)
Module Inputs.

Definition main : Ws.Uri := "file:///ws/Main.lean".

Definition resolveVersion :=
  resolveVersion Ws.Uri Ws.toString Ws.scheme Ws.untitled Ws.findLeanPackageRoot.

(** The probe of [/ws] answers Lean 3, and Lean 4 with an error. *)
Definition answers_lean3 : list Answer := [Ws.quiet (RVersion Ws.lean3); Ws.quiet RUnit].
Definition answers_noToolchain : list Answer :=
  [Ws.quiet (RVersion Ws.lean4_noToolchain); Ws.quiet RUnit].

(** The world when the version of [/ws] arrives in the first call. *)
Definition resolved (answers : list Answer) : World :=
  Ws.after (resolveVersion None Ws.ws) answers (registered "file:///ws" emptyWorld).

(** A signal for [/ws/lean-toolchain] is being handled. *)
Definition toolchain : Ws.Uri := "file:///ws/lean-toolchain".

Definition handling : World :=
  with_testing (JsMap.set toolchain true) Ws.opened_ws.

(** A table with one method subscribed twice and one subscribed once. *)
Definition handle0 : Handle := mkHandle 7 Ws.client_ws CustomNotification "$/lean/fileProgress".
Definition handle1 : Handle := mkHandle 8 Ws.client_ws Diagnostics "textDocument/publishDiagnostics".

Definition two_methods : World :=
  with_serverNotif
    (fun _ => [("$/lean/fileProgress", (2%Z, [handle0]));
               ("textDocument/publishDiagnostics", (1%Z, [handle1]))])
    Ws.opened_ws.

End Inputs.

(** ** Handlers of a first subscription *)

(** The handles [subscribeAll] makes for the clients [cs], from the object
    identity [n] on. *)
Fixpoint freshHandles (kind : HandlerKind) (method : string) (n : nat)
    (cs : list LeanClient) : list Handle :=
  match cs with
  | [] => []
  | c :: rest => mkHandle n c kind method :: freshHandles kind method (S n) rest
  end.

(** The methods [subscribeServerNotifications] and
    [subscribeClientNotifications] accept, and the emitter each goes to. *)
Definition serverSupported (method : string) : bool :=
  String.eqb method "textDocument/publishDiagnostics" || String.prefix "$" method.

Definition serverKind (method : string) : HandlerKind :=
  if String.eqb method "textDocument/publishDiagnostics" then Diagnostics
  else CustomNotification.

Definition clientSupported (method : string) : bool :=
  String.eqb method "textDocument/didChange" || String.eqb method "textDocument/didClose".

Definition clientKind (method : string) : HandlerKind :=
  if String.eqb method "textDocument/didChange" then DidChange else DidClose.

(** The timers of a list of sessions, as [clearInterval] calls. *)
Definition clearTimers (sessions : list RpcSession) : list Effect :=
  map (fun s => EClearInterval (keepAliveInterval s)) sessions.

(** The handles of all entries of a table. *)
Definition allHandles (table : JsMap.t (Z * list Handle)) : list Handle :=
  flat_map (fun entry => snd entry) (JsMap.values table).

(** Subscribe followed by unsubscribe on [table]: the table is as before;
    a method subscribed before sees no handler attached or disposed, a new
    one sees the handlers of the subscription, one per active connection,
    disposed again. *)
Definition restores_table
    (table : World -> JsMap.t (Z * list Handle))
    (supported : string -> bool)
    (subscribe unsubscribe : string -> Task unit) : Prop :=
  forall (method : string) (w : World),
    let w1 := fst (run (subscribe method) w) in
    let w2 := fst (run (unsubscribe method) w1) in
    counted (table w) ->
    JsMap.has method (table w) = true \/ supported method = true ->
    snd (run (subscribe method) w) = Finished tt /\
    snd (run (unsubscribe method) w1) = Finished tt /\
    table w2 = table w /\
    (JsMap.has method (table w) = true -> trace w2 = trace w) /\
    (JsMap.has method (table w) = false ->
     exists hs,
       map hclient hs = getClients w /\
       trace w2 = (trace w ++ map EAttach hs ++ map EDisposeHandle hs)%list).

(** ** What a task guarantees whatever happens at its [await]s

    [Post] holds where the task returns and [EPost] where it throws, for
    every response to every [await] and every world the task is resumed
    in. *)
Fixpoint ensures {R : Type} (Post : R -> World -> Prop) (EPost : string -> World -> Prop)
    (t : Task R) (w : World) : Prop :=
  match t with
  | Ret r => Post r w
  | Throw e => EPost e w
  | Get k => ensures Post EPost (k w) w
  | Put w' k => ensures Post EPost k w'
  | Await q k => forall r w', ensures Post EPost (k r) w'
  end.

(** The folder strings of a list of removed workspace folders. *)
Definition removedRoots {Uri : Type} (toString : Uri -> string) (removed : list Uri)
  : list string := map toString removed.

Definition isRemoved (root : string) (roots : list string) : bool :=
  existsb (String.eqb root) roots.

(** ** One turn of the loops of [onClientRestarted] *)

(** The world after the server loop has handled [method] for [client]. *)
Definition resubscribeServer_step (client : LeanClient) (method : string) (w : World) : World :=
  if serverSupported method then
    with_serverNotif
      (push_in method (mkHandle (nextId w) client (serverKind method) method))
      (emit (EAttach (mkHandle (nextId w) client (serverKind method) method))
            (with_nextId (S (nextId w)) w))
  else w.

Definition resubscribeClient_step (client : LeanClient) (method : string) (w : World) : World :=
  if clientSupported method then
    with_clientNotif
      (push_in method (mkHandle (nextId w) client (clientKind method) method))
      (emit (EAttach (mkHandle (nextId w) client (clientKind method) method))
            (with_nextId (S (nextId w)) w))
  else w.

(** The world in which the two loops of [onClientRestarted] end when they
    begin in [w]. *)
Definition resubscribed (client : LeanClient) (w : World) : World :=
  let w1 := fst (run (resubscribeClientNotifs client
                        (JsMap.keys (clientNotifSubscriptions w))) w) in
  fst (run (resubscribeServerNotifs client
              (JsMap.keys (serverNotifSubscriptions w1))) w1).

(** What a loop did to the entry of [method] in [table]: a supported
    method gained exactly one handle, attached to [client] on the emitter
    of the method, under the same count; any other entry is as before. *)
Definition gained_one (client : LeanClient)
    (supported : string -> bool) (kind : string -> HandlerKind)
    (table table' : JsMap.t (Z * list Handle)) (w w' : World) : Prop :=
  forall method n hs,
    JsMap.get method table = Some (n, hs) ->
    if supported method then
      exists h,
        JsMap.get method table' = Some (n, (hs ++ [h])%list) /\
        hclient h = client /\ hkind h = kind method /\ hmethod h = method /\
        nextId w <= hid h < nextId w' /\
        In (EAttach h) (trace w')
    else JsMap.get method table' = Some (n, hs).

(** ** [getLeanDocument] of the extension's [activate] *)

(** An editor, by the uri and the language id of its document. *)
Record TextDocument : Type := mkTextDocument {
  docUri : string;
  languageId : string
}.

Definition isLean (languageId : string) : bool :=
  String.eqb languageId "lean" || String.eqb languageId "lean4".

(** The loop over [window.visibleTextEditors]. *)
Fixpoint getLeanDocument_loop (visibleTextEditors : list TextDocument)
  : option TextDocument :=
  match visibleTextEditors with
  | [] => None
  | editor :: rest =>
      if isLean (languageId editor) then Some editor
      else getLeanDocument_loop rest
  end.

Definition getLeanDocument (activeTextEditor : option TextDocument)
    (visibleTextEditors : list TextDocument) : option TextDocument :=
  match activeTextEditor with
  | Some document =>
      if isLean (languageId document) then Some document
      else getLeanDocument_loop visibleTextEditors
  | None => getLeanDocument_loop visibleTextEditors
  end.

(** ** The text [handleInsertText] inserts above a line *)

Definition LF : Ascii.ascii := Ascii.ascii_of_nat 10.
Definition SPACE : Ascii.ascii := Ascii.ascii_of_nat 32.

(** [[...Array(spaces).keys()].map(x => ' ').join('')] *)
Fixpoint margin_str (spaces : nat) : string :=
  match spaces with
  | O => EmptyString
  | S n => String SPACE (margin_str n)
  end.

(** [text.replace(/\n/g, replacement)] *)
Fixpoint replaceNewlines (text replacement : string) : string :=
  match text with
  | EmptyString => EmptyString
  | String ch rest =>
      if Ascii.eqb ch LF then replacement ++ replaceNewlines rest replacement
      else String ch (replaceNewlines rest replacement)
  end.

(** The [new_command] of the branch [kind === 'above'], for the indentation
    [spaces] of the line before. *)
Definition new_command (text : string) (spaces : nat) : string :=
  String LF (margin_str spaces
             ++ replaceNewlines text (String LF (margin_str spaces))).

(** The lines of a text: what lies between its line feeds. *)
Fixpoint lines (s : string) : list string :=
  match s with
  | EmptyString => [EmptyString]
  | String ch rest =>
      if Ascii.eqb ch LF then EmptyString :: lines rest
      else match lines rest with
           | l :: ls => String ch l :: ls
           | [] => [String ch EmptyString]
           end
  end.

(** ** Inputs of the further concrete instances *)
Module MoreInputs.

Definition hover : string := "textDocument/hover".

(** The world after a signal for the toolchain file of [/ws] whose probe
    found Lean 3. *)
Definition signal_lean3 : World :=
  Ws.after (Ws.installChanged Inputs.toolchain) [Ws.quiet (RVersion Ws.lean3)] Ws.opened_ws.

Definition readme : TextDocument := mkTextDocument "file:///ws/README.md" "markdown".
Definition mainDoc : TextDocument := mkTextDocument "file:///ws/Main.lean" "lean4".

End MoreInputs.

(** * Proofs *)

(** ** Facts about [JsMap] *)
Module JsMapFacts.
Import JsMap.

Lemma get_set_same {V} k (v : V) m : get k (set k v m) = Some v.
Proof.
  induction m as [|[k' v'] r IH]; simpl.
  - now rewrite String.eqb_refl.
  - destruct (String.eqb k k') eqn:E; simpl; rewrite ?E, ?String.eqb_refl; auto.
Qed.

Lemma get_set_other {V} k k' (v : V) m :
  k' <> k -> get k' (set k v m) = get k' m.
Proof.
  intros Hne. induction m as [|[k0 v0] r IH]; simpl.
  - destruct (String.eqb_spec k' k); congruence.
  - destruct (String.eqb_spec k k0) as [->|Hk]; simpl.
    + destruct (String.eqb_spec k' k0); congruence.
    + destruct (String.eqb_spec k' k0); auto.
Qed.

Lemma get_delete_same {V} k (m : t V) : get k (delete k m) = None.
Proof.
  induction m as [|[k' v'] r IH]; simpl; auto.
  destruct (String.eqb k k') eqn:E; simpl; rewrite ?E; auto.
Qed.

Lemma get_delete_other {V} k k' (m : t V) :
  k' <> k -> get k' (delete k m) = get k' m.
Proof.
  intros Hne. induction m as [|[k0 v0] r IH]; simpl; auto.
  destruct (String.eqb_spec k k0) as [->|Hk]; simpl.
  - destruct (String.eqb_spec k' k0); congruence.
  - destruct (String.eqb_spec k' k0); auto.
Qed.

Lemma has_set_same {V} k (v : V) m : has k (set k v m) = true.
Proof. unfold has. now rewrite get_set_same. Qed.

Lemma has_set_other {V} k k' (v : V) m :
  k' <> k -> has k' (set k v m) = has k' m.
Proof. intros. unfold has. now rewrite get_set_other. Qed.

Lemma has_delete_same {V} k (m : t V) : has k (delete k m) = false.
Proof. unfold has. now rewrite get_delete_same. Qed.

Lemma has_delete_other {V} k k' (m : t V) :
  k' <> k -> has k' (delete k m) = has k' m.
Proof. intros. unfold has. now rewrite get_delete_other. Qed.

Lemma has_false_get {V} k (m : t V) : has k m = false <-> get k m = None.
Proof. unfold has. destruct (get k m); split; congruence. Qed.

Lemma has_true_get {V} k (m : t V) : has k m = true <-> exists v, get k m = Some v.
Proof.
  unfold has. destruct (get k m); split; try congruence; eauto.
  intros [v Hv]. discriminate.
Qed.

Lemma get_In_values {V} k (m : t V) v : get k m = Some v -> In v (values m).
Proof.
  induction m as [|[k' v'] r IH]; simpl; [discriminate|].
  destruct (String.eqb k k'); intros H.
  - left. congruence.
  - right. auto.
Qed.

End JsMapFacts.

(** ** Segments and binds *)

Lemma run_bind {A B} (t : Task A) (f : A -> Task B) w :
  run (bind t f) w =
  match run t w with
  | (w', Finished a) => run (f a) w'
  | (w', Failed e) => (w', Failed e)
  | (w', Suspended q k) => (w', Suspended q (fun r => bind (k r) f))
  end.
Proof.
  revert w. induction t as [a|e|k IH|w' k IH|q k IH]; intros w; simpl; auto.
Qed.

Lemma drive_bind {A B} (t : Task A) (f : A -> Task B) answers w :
  drive (bind t f) answers w =
  match drive t answers w with
  | (w', Finished a, rest) => drive (f a) rest w'
  | (w', Failed e, rest) => (w', Failed e, rest)
  | (w', Suspended q k, rest) => (w', Suspended q (fun r => bind (k r) f), rest)
  end.
Proof.
  revert answers w.
  induction t as [a|e|k IH|w' k IH|q k IH]; intros answers w; simpl; auto.
  destruct answers as [|[r env] rest]; auto.
Qed.

(** ** [findClient] *)

Lemma findClient_loop_Some path cs c :
  findClient_loop path cs = Some c <->
  exists before after,
    cs = (before ++ c :: after)%list /\ matches path c = true /\
    forall c', In c' before -> matches path c' = false.
Proof.
  induction cs as [|c0 rest IH]; simpl.
  - split; [discriminate|]. intros (b & a & H & _). destruct b; discriminate.
  - fold (matches path c0). destruct (matches path c0) eqn:E.
    + split.
      * intros [= <-]. exists [], rest. simpl. intuition.
      * intros (b & a & H & Hc & Hb). destruct b as [|c1 b]; simpl in H.
        -- congruence.
        -- injection H as <- _. rewrite (Hb c0) in E; [discriminate|now left].
    + rewrite IH. split.
      * intros (b & a & -> & Hc & Hb). exists (c0 :: b), a. simpl.
        repeat split; auto. intros c' [<-|Hin]; auto.
      * intros (b & a & H & Hc & Hb). destruct b as [|c1 b]; simpl in H.
        -- injection H as <- _. congruence.
        -- injection H as <- ->. exists b, a. repeat split; auto.
           intros c' Hin. apply Hb. now right.
Qed.

Lemma findClient_loop_None path cs :
  findClient_loop path cs = None <-> forall c, In c cs -> matches path c = false.
Proof.
  induction cs as [|c0 rest IH]; simpl.
  - intuition.
  - fold (matches path c0). destruct (matches path c0) eqn:E.
    + split; [discriminate|]. intros H. rewrite (H c0) in E; [discriminate|now left].
    + rewrite IH. split.
      * intros H c [<-|Hin]; auto.
      * intros H c Hin. apply H. now right.
Qed.

Lemma truthy_true s : truthy s = true <-> s <> "".
Proof.
  unfold truthy. destruct (String.eqb_spec s ""); simpl; split; congruence.
Qed.



(** ** [ensureClient]: one call *)

Section EnsureClient.

Variable Uri : Type.
Variable toString : Uri -> string.
Variable scheme : Uri -> string.
Variable untitled : Uri.
Variable findLeanPackageRoot : Uri -> option Uri * option Uri * option Uri.

Local Abbreviation folderOf := (folderOf Uri untitled findLeanPackageRoot).
Local Abbreviation resolveVersion :=
  (resolveVersion Uri toString scheme untitled findLeanPackageRoot).
Local Abbreviation ensureClient :=
  (ensureClient Uri toString scheme untitled findLeanPackageRoot).

Lemma ensureClient_create_run path w :
  run (ensureClient_create path) w =
    (registered path w, Finished (mkLeanClient (nextId w) path)).
Proof. reflexivity. Qed.

Lemma registered_clients path w :
  JsMap.get path (clients (registered path w)) = Some (mkLeanClient (nextId w) path).
Proof. unfold registered. simpl. apply JsMapFacts.get_set_same. Qed.

Lemma registered_pending path w :
  JsMap.has path (pending (registered path w)) = true.
Proof. unfold registered. simpl. apply JsMapFacts.has_set_same. Qed.

Lemma drive_of_run {R} (t : Task R) w w' (r : R) answers :
  run t w = (w', Finished r) -> drive t answers w = (w', Finished r, answers).
Proof.
  revert w. induction t as [a|e|k IH|w0 k IH|q k IH]; intros w; simpl; auto.
  - intros [= -> ->]. reflexivity.
  - discriminate.
  - discriminate.
Qed.

(** A call on a root without connection and without guard: the client is
    made and registered, the version is resolved, the set-up follows. *)
Lemma ensureClient_new uri known answers w :
  let path := toString (folderOf uri) in
  JsMap.has path (clients w) = false ->
  JsMap.has path (pending w) = false ->
  drive (ensureClient uri known) answers w =
  drive (versionInfo <- resolveVersion known (folderOf uri) ;;
         continue <- ensureClient_setup path (mkLeanClient (nextId w) path) versionInfo ;;
         if continue then
           modify (with_activeClient (Some (mkLeanClient (nextId w) path))) ;;
           Ret (false, Some (mkLeanClient (nextId w) path))
         else Ret (false, None))
        answers (registered path w).
Proof.
  intros path Hc Hp. unfold ensureClient. fold path.
  cbn [bind get drive]. rewrite Hc, Hp. cbn [negb].
  rewrite drive_bind. rewrite (drive_of_run _ _ _ _ _ (ensureClient_create_run path w)).
  reflexivity.
Qed.

Lemma isForeign_true v :
  version v <> "" -> version v <> "4" -> isForeign (Some v) = true.
Proof.
  intros H0 H4. unfold isForeign, truthy.
  destruct (String.eqb_spec (version v) ""); [contradiction|].
  destruct (String.eqb_spec (version v) "4"); [contradiction|reflexivity].
Qed.

(** C3: a call of [ensureClient] on a root without connection whose
    version resolves to a major version other than "4" returns
    [(false, undefined)] without raising; the connection it had registered
    is removed from the registry and disposed, and the pending guard of the
    root is cleared. *)
Theorem ensureClient_foreign_workspace
    (uri : Uri) (known : option LeanVersion) (answers rest : list Answer)
    (w w2 : World) (v : LeanVersion) :
  let path := toString (folderOf uri) in
  let c := mkLeanClient (nextId w) path in
  JsMap.has path (clients w) = false ->
  JsMap.has path (pending w) = false ->
  drive (resolveVersion known (folderOf uri)) answers (registered path w)
    = (w2, Finished (Some v), rest) ->
  version v <> "" -> version v <> "4" ->
  JsMap.get path (clients (registered path w)) = Some c /\
  exists w3,
    drive (ensureClient uri known) answers w = (w3, Finished (false, None), rest) /\
    JsMap.get path (clients w3) = None /\
    JsMap.has path (pending w3) = false /\
    In (EDisposeClient c) (trace w3) /\
    (forall e, In (EShowError e) (trace w3) -> In (EShowError e) (trace w2)).
Proof.
  intros path c Hc Hp Hres Hv0 Hv4. split; [apply registered_clients|].
  rewrite (ensureClient_new uri known answers w Hc Hp). fold path c.
  rewrite drive_bind, Hres.
  unfold ensureClient_setup. rewrite (isForeign_true v Hv0 Hv4).
  eexists. split; [reflexivity|]. cbn.
  repeat split.
  - apply JsMapFacts.get_delete_same.
  - apply JsMapFacts.has_delete_same.
  - apply in_or_app. right. now left.
  - intros e He. apply in_app_or in He. destruct He as [He|[He|[]]]; [|discriminate].
    apply in_app_or in He. destruct He as [He|[He|[]]]; [assumption|discriminate].
Qed.

Lemma isForeign_4 v : version v = "4" -> isForeign (Some v) = false.
Proof. intros H. unfold isForeign. rewrite H. reflexivity. Qed.

(** C8: a call of [ensureClient] that creates the connection of a root
    whose version resolves to "4" emits the connection-added event, and
    calls [start] on the connection if and only if the probe carries no
    error; with an error the call returns the connection, still in the
    registry as it was when the version arrived, and nothing was started.
    [w2] is the world when the version arrives, [w3] the world at the end
    of the segment that follows. *)
Theorem ensureClient_added_and_started
    (uri : Uri) (known : option LeanVersion) (answers rest : list Answer)
    (w w2 : World) (v : LeanVersion) :
  let path := toString (folderOf uri) in
  let c := mkLeanClient (nextId w) path in
  let w3 := fst (run (ensureClient_setup path c (Some v)) w2) in
  JsMap.has path (clients w) = false ->
  JsMap.has path (pending w) = false ->
  drive (resolveVersion known (folderOf uri)) answers (registered path w)
    = (w2, Finished (Some v), rest) ->
  version v = "4" ->
  In (ENewClient c) (trace (registered path w)) /\
  JsMap.get path (clients (registered path w)) = Some c /\
  (exists added,
     trace w3 = (trace w2 ++ added)%list /\
     In (EClientAdded c) added /\
     (In (EStart c) added <-> truthy_opt (error v) = false)) /\
  clients w3 = clients w2 /\
  JsMap.has path (pending w3) = false /\
  (truthy_opt (error v) = true ->
     drive (ensureClient uri known) answers w
       = (with_activeClient (Some c) w3, Finished (false, Some c), rest) /\
     clients (with_activeClient (Some c) w3) = clients w2) /\
  (truthy_opt (error v) = false ->
     (exists k, snd (run (ensureClient_setup path c (Some v)) w2)
                  = Suspended (ClientStart c) k) /\
     forall env rest',
       rest = (RUnit, env) :: rest' ->
       drive (ensureClient uri known) answers w
         = (with_activeClient (Some c) (env w3), Finished (false, Some c), rest')).
Proof.
  intros path c w3 Hc Hp Hres Hv.
  split; [unfold registered; cbn; apply in_or_app; right; now left|].
  split; [apply registered_clients|].
  pose proof (ensureClient_new uri known answers w Hc Hp) as Hnew.
  fold path c in Hnew. rewrite drive_bind, Hres in Hnew.
  subst w3. unfold ensureClient_setup in *. rewrite (isForeign_4 v Hv) in *.
  unfold readyToStart in *.
  destruct (truthy_opt (error v)) eqn:E; cbn [negb] in *.
  - cbn in Hnew. cbn. repeat split; try discriminate.
    + eexists. split; [rewrite <- !app_assoc; reflexivity|]. split.
      * cbn. auto.
      * split; [|discriminate]. cbn. intuition discriminate.
    + apply JsMapFacts.has_delete_same.
    + exact Hnew.
  - cbn. repeat split; try discriminate.
    + eexists. split; [rewrite <- !app_assoc; reflexivity|]. split.
      * cbn. auto.
      * split; [reflexivity|]. intros _. cbn. auto 10.
    + apply JsMapFacts.has_delete_same.
    + eexists. reflexivity.
    + intros env rest' ->. cbn in Hnew. exact Hnew.
Qed.

End EnsureClient.

(** ** The toolchain-change listener *)

Section InstallChanged.

Variable Uri : Type.
Variable toString : Uri -> string.
Variable scheme : Uri -> string.
Variable untitled : Uri.
Variable findLeanPackageRoot : Uri -> option Uri * option Uri * option Uri.

Local Abbreviation folderOf := (folderOf Uri untitled findLeanPackageRoot).
Local Abbreviation installChanged :=
  (installChanged Uri toString scheme untitled findLeanPackageRoot).

(** C7: a toolchain-change signal whose location string is in the
    [testing] guard is dropped: the listener logs and returns, nothing
    else changes and nothing is left to run later.  Otherwise the guard is
    taken and the version probed; when the probe answers "4" and the
    registry then holds a connection for the root, [ensureClient] hands
    that connection back and the listener calls [restart] on it: no client
    is made, the registry is not written. *)
Theorem installChanged_drop_or_restart (uri : Uri) (w : World) :
  let path := toString uri in
  let root := toString (folderOf uri) in
  (JsMap.has path (testing w) = true ->
   run (installChanged uri) w
     = (emit (ELog ("Blocking re-entrancy on " ++ path)) w, Finished tt)) /\
  (JsMap.has path (testing w) = false ->
   forall (v : LeanVersion) (c : LeanClient) (env1 env2 : World -> World) (r2 : Response),
     let w1 := env1 (with_testing (JsMap.set path true) w) in
     version v = "4" ->
     JsMap.get root (clients w1) = Some c ->
     exists k,
       drive (installChanged uri) [(RVersion v, env1); (r2, env2)] w
         = (emit (ERestart c) (env2 (with_activeClient (Some c) w1)),
            Suspended (ClientRestart c) k, [])).
Proof.
  intros path root. split.
  - intros H. unfold installChanged. fold path. cbn. rewrite H. reflexivity.
  - intros H v c env1 env2 r2 w1 Hv Hc.
    unfold installChanged. fold path. cbn. rewrite H. cbn.
    rewrite Hv. cbn. fold root. fold w1.
    unfold JsMap.has. rewrite Hc. cbn.
    eexists. reflexivity.
Qed.

End InstallChanged.

(** ** RPC sessions *)

(** C10: when [findClient] finds no connection for the document,
    [createRpcSession] returns the empty string; it raises nothing and
    leaves the world as it was, so no session is made and none is added to
    the table. *)
Theorem createRpcSession_no_client (uri : string) (w : World) :
  findClient uri w = None ->
  run (createRpcSession uri) w = (w, Finished "").
Proof.
  intros H. unfold createRpcSession. cbn. rewrite H. reflexivity.
Qed.

(** C9: when the webview panel is gone in the world [w3] in which
    [createRpcSession] continues after the connect request, the session
    just made is disposed, that is its heartbeat timer is cleared, the
    session table is as in [w3], and the call fails. *)
Theorem createRpcSession_panel_closed
    (uri sid : string) (w : World) (c : LeanClient)
    (env1 env2 : World -> World) (r : Response) :
  let w3 := env2 (env1 w) in
  let timer := nextId w3 in
  findClient uri w = Some c ->
  webviewPanel w3 = false ->
  exists w4,
    drive (createRpcSession uri) [(RConnected sid, env1); (r, env2)] w
      = (w4, Failed "infoview disconnect while connecting to RPC session", []) /\
    rpcSessions w4 = rpcSessions w3 /\
    trace w4 = (trace w3 ++ [ESetInterval timer; EClearInterval timer])%list.
Proof.
  intros w3 timer Hc Hp. unfold createRpcSession. cbn. rewrite Hc. cbn.
  fold w3. rewrite Hp. cbn. eexists. split; [reflexivity|].
  cbn. split; [reflexivity|]. now rewrite <- app_assoc.
Qed.

(** ** The notification tables *)

Lemma emits_nil w : emits [] w = w.
Proof. destruct w. unfold emits. cbn. now rewrite app_nil_r. Qed.

Lemma emits_emit e es w : emits es (emit e w) = emits (e :: es) w.
Proof. unfold emits, emit. cbn. now rewrite <- app_assoc. Qed.

Lemma forEach_dispose hs w :
  run (forEach hs Handle_dispose) w = (emits (map EDisposeHandle hs) w, Finished tt).
Proof.
  revert w. induction hs as [|h hs IH]; intros w; cbn.
  - now rewrite emits_nil.
  - rewrite IH. now rewrite emits_emit.
Qed.

Lemma subscribeAll_tables sub kind cs method w :
  sub = attach kind ->
  exists w' hs,
    run (subscribeAll sub cs method) w = (w', Finished hs) /\
    serverNotifSubscriptions w' = serverNotifSubscriptions w /\
    clientNotifSubscriptions w' = clientNotifSubscriptions w.
Proof.
  intros ->. revert w. induction cs as [|c cs IH]; intros w; cbn.
  - eauto.
  - rewrite run_bind.
    destruct (IH (emit (EAttach (mkHandle (nextId w) c kind method))
                    (with_nextId (S (nextId w)) w))) as (w' & hs & -> & Hs & Hc).
    cbn. eauto.
Qed.

Lemma counted_set table method n hs :
  counted table -> (0 < n)%Z -> counted (JsMap.set method (n, hs) table).
Proof.
  intros H Hn m. unfold refCount. destruct (String.eqb_spec m method) as [->|Hne].
  - rewrite JsMapFacts.get_set_same, JsMapFacts.has_set_same. tauto.
  - rewrite JsMapFacts.get_set_other, JsMapFacts.has_set_other by assumption. apply H.
Qed.

Lemma counted_delete table method :
  counted table -> counted (JsMap.delete method table).
Proof.
  intros H m. unfold refCount. destruct (String.eqb_spec m method) as [->|Hne].
  - rewrite JsMapFacts.get_delete_same, JsMapFacts.has_delete_same. split; [lia|discriminate].
  - rewrite JsMapFacts.get_delete_other, JsMapFacts.has_delete_other by assumption. apply H.
Qed.

Lemma counted_entry table method n hs :
  counted table -> JsMap.get method table = Some (n, hs) -> (0 < n)%Z.
Proof.
  intros H Hg. pose proof (H method) as [_ Hm].
  unfold refCount, JsMap.has in Hm. rewrite Hg in Hm. now apply Hm.
Qed.

Lemma unsubscribeServer_counted method w :
  counted (serverNotifSubscriptions w) ->
  counted (serverNotifSubscriptions (fst (run (unsubscribeServerNotifications method) w))).
Proof.
  intros H. unfold unsubscribeServerNotifications. cbn.
  destruct (JsMap.get method (serverNotifSubscriptions w)) as [[n hs]|] eqn:E; [|assumption].
  destruct (Z.eqb_spec n 1) as [->|Hn].
  - rewrite run_bind, forEach_dispose. cbn. now apply counted_delete.
  - cbn. apply counted_set; [assumption|].
    pose proof (counted_entry _ _ _ _ H E). lia.
Qed.

Lemma unsubscribeClient_counted method w :
  counted (clientNotifSubscriptions w) ->
  counted (clientNotifSubscriptions (fst (run (unsubscribeClientNotifications method) w))).
Proof.
  intros H. unfold unsubscribeClientNotifications. cbn.
  destruct (JsMap.get method (clientNotifSubscriptions w)) as [[n hs]|] eqn:E; [|assumption].
  destruct (Z.eqb_spec n 1) as [->|Hn].
  - rewrite run_bind, forEach_dispose. cbn. now apply counted_delete.
  - cbn. apply counted_set; [assumption|].
    pose proof (counted_entry _ _ _ _ H E). lia.
Qed.

Lemma subscribeServer_counted method w :
  counted (serverNotifSubscriptions w) ->
  counted (serverNotifSubscriptions (fst (run (subscribeServerNotifications method) w))).
Proof.
  intros H. unfold subscribeServerNotifications. cbn.
  destruct (JsMap.get method (serverNotifSubscriptions w)) as [[n hs]|] eqn:E.
  - cbn. apply counted_set; [assumption|].
    pose proof (counted_entry _ _ _ _ H E). lia.
  - destruct (String.eqb method "textDocument/publishDiagnostics").
    + rewrite run_bind.
      destruct (subscribeAll_tables subscribeDiagnosticsNotification Diagnostics
                  (getClients w) method w eq_refl) as (w' & hs & -> & Hs & _).
      cbn. rewrite Hs. apply counted_set; [assumption|lia].
    + destruct (String.prefix "$" method); [|assumption].
      rewrite run_bind.
      destruct (subscribeAll_tables subscribeCustomNotification CustomNotification
                  (getClients w) method w eq_refl) as (w' & hs & -> & Hs & _).
      cbn. rewrite Hs. apply counted_set; [assumption|lia].
Qed.

Lemma subscribeClient_counted method w :
  counted (clientNotifSubscriptions w) ->
  counted (clientNotifSubscriptions (fst (run (subscribeClientNotifications method) w))).
Proof.
  intros H. unfold subscribeClientNotifications. cbn.
  destruct (JsMap.get method (clientNotifSubscriptions w)) as [[n hs]|] eqn:E.
  - cbn. apply counted_set; [assumption|].
    pose proof (counted_entry _ _ _ _ H E). lia.
  - destruct (String.eqb method "textDocument/didChange").
    + rewrite run_bind.
      destruct (subscribeAll_tables subscribeDidChangeNotification DidChange
                  (getClients w) method w eq_refl) as (w' & hs & -> & _ & Hs).
      cbn. rewrite Hs. apply counted_set; [assumption|lia].
    + destruct (String.eqb method "textDocument/didClose"); [|assumption].
      rewrite run_bind.
      destruct (subscribeAll_tables subscribeDidCloseNotification DidClose
                  (getClients w) method w eq_refl) as (w' & hs & -> & _ & Hs).
      cbn. rewrite Hs. apply counted_set; [assumption|lia].
Qed.

Lemma unsubscribeServer_spec :
  unsubscribe_spec serverNotifSubscriptions unsubscribeServerNotifications.
Proof.
  intros method w. unfold unsubscribeServerNotifications. cbn.
  split; [|split].
  - intros n hs E Hn. rewrite E.
    destruct (Z.eqb_spec n 1); [lia|]. cbn. unfold refCount, handlersOf.
    rewrite !JsMapFacts.get_set_same. auto.
  - intros hs E. rewrite E. cbn [Z.eqb Pos.eqb].
    rewrite run_bind, forEach_dispose. cbn. unfold refCount.
    rewrite JsMapFacts.has_delete_same, JsMapFacts.get_delete_same. auto.
  - intros E. rewrite E. auto.
Qed.

Lemma unsubscribeClient_spec :
  unsubscribe_spec clientNotifSubscriptions unsubscribeClientNotifications.
Proof.
  intros method w. unfold unsubscribeClientNotifications. cbn.
  split; [|split].
  - intros n hs E Hn. rewrite E.
    destruct (Z.eqb_spec n 1); [lia|]. cbn. unfold refCount, handlersOf.
    rewrite !JsMapFacts.get_set_same. auto.
  - intros hs E. rewrite E. cbn [Z.eqb Pos.eqb].
    rewrite run_bind, forEach_dispose. cbn. unfold refCount.
    rewrite JsMapFacts.has_delete_same, JsMapFacts.get_delete_same. auto.
  - intros E. rewrite E. auto.
Qed.

(** C4: in both notification tables, unsubscribing a method whose count
    is n > 1 sets the count to n - 1 and keeps its handlers; at count 1 it
    disposes every handle of the method and deletes the entry; without
    entry it raises an error and changes nothing.  Subscribing and
    unsubscribing keep the invariant that the reference count of a method
    is positive if and only if the method has an entry. *)
Theorem unsubscribe_reference_count :
  unsubscribe_spec serverNotifSubscriptions unsubscribeServerNotifications /\
  unsubscribe_spec clientNotifSubscriptions unsubscribeClientNotifications /\
  keeps_counted serverNotifSubscriptions subscribeServerNotifications /\
  keeps_counted serverNotifSubscriptions unsubscribeServerNotifications /\
  keeps_counted clientNotifSubscriptions subscribeClientNotifications /\
  keeps_counted clientNotifSubscriptions unsubscribeClientNotifications.
Proof.
  split; [exact unsubscribeServer_spec|].
  split; [exact unsubscribeClient_spec|].
  split; [|split; [|split]]; intros method w.
  - apply subscribeServer_counted.
  - apply unsubscribeServer_counted.
  - apply subscribeClient_counted.
  - apply unsubscribeClient_counted.
Qed.

(** ** Interleaved calls: at most one connection per root *)

Section SafeFacts.

Variable Inv : World -> Prop.
Variable Rely : World -> World -> Prop.
Variable ok : Response -> Prop.

(** What a segment of a safe task leaves behind. *)
Lemma safe_run {R} (Post : R -> World -> World -> Prop) EPost (t : Task R) w0 w :
  safe Inv Rely ok Post EPost t w0 w ->
  match run t w with
  | (w', Finished r) => Post r w0 w'
  | (w', Failed e) => EPost e w0 w'
  | (w', Suspended q k) =>
      Inv w' /\ Rely w0 w' /\
      forall r w'', ok r -> Inv w'' -> Rely w' w'' ->
                    safe Inv Rely ok Post EPost (k r) w'' w''
  end.
Proof.
  revert w. induction t as [a|e|k IH|w1 k IH|q k IH]; intros w; simpl; auto.
  - intros H. now apply IH.
  - intros H. now apply IH.
Qed.

End SafeFacts.

Lemma createdFor_emit root e w :
  createdFor root (emit e w)
  = createdFor root w + (if isNewClientFor root e then 1 else 0).
Proof.
  unfold createdFor. cbn. rewrite filter_app, length_app. cbn.
  destruct (isNewClientFor root e); reflexivity.
Qed.

(** The invariant reads the registry, the guard, the cache and the
    clients made, nothing else. *)
Lemma RegistryInv_ext w w' :
  RegistryInv w ->
  clients w' = clients w ->
  versions w' = versions w ->
  (forall r, JsMap.has r (pending w') = true -> JsMap.has r (pending w) = true) ->
  (forall r, createdFor r w' = createdFor r w) ->
  RegistryInv w'.
Proof.
  intros [Hp Hv Ha Ho] Hc Hvs Hpe Hcr. constructor.
  - intros r H. rewrite Hc. auto.
  - intros p v H. rewrite Hvs in H. eauto.
  - intros r H. rewrite Hc in H. rewrite Hcr. auto.
  - intros r. rewrite Hcr. auto.
Qed.

Lemma RegistryInv_versions w p v :
  RegistryInv w -> isForeign (Some v) = false ->
  RegistryInv (with_versions (JsMap.set p v) w).
Proof.
  intros [Hp Hv Ha Ho] Hf. constructor; cbn; auto.
  intros p' v'. destruct (String.eqb_spec p' p) as [->|Hne].
  - rewrite JsMapFacts.get_set_same. now intros [= <-].
  - rewrite JsMapFacts.get_set_other by assumption. eauto.
Qed.

Lemma has_pending_delete r root (m : JsMap.t bool) :
  JsMap.has r (JsMap.delete root m) = true -> JsMap.has r m = true.
Proof.
  destruct (String.eqb_spec r root) as [->|Hne].
  - now rewrite JsMapFacts.has_delete_same.
  - now rewrite JsMapFacts.has_delete_other.
Qed.

Lemma RegistryInv_registered root w :
  RegistryInv w -> JsMap.has root (clients w) = false ->
  RegistryInv (registered root w).
Proof.
  intros [Hp Hv Ha Ho] Hc. unfold registered. constructor; cbn.
  - intros r. destruct (String.eqb_spec r root) as [->|Hne].
    + now rewrite !JsMapFacts.has_set_same.
    + rewrite !JsMapFacts.has_set_other by assumption. auto.
  - exact Hv.
  - intros r. destruct (String.eqb_spec r root) as [->|Hne].
    + now rewrite JsMapFacts.has_set_same.
    + rewrite JsMapFacts.has_set_other by assumption. intros H.
      unfold createdFor. cbn. rewrite !filter_app, !length_app. cbn.
      destruct (String.eqb_spec root r); [congruence|]. cbn.
      apply Ha in H. unfold createdFor in H. lia.
  - intros r. unfold createdFor. cbn. rewrite !filter_app, !length_app. cbn.
    destruct (String.eqb_spec root r) as [<-|Hne]; cbn.
    + apply Ha in Hc. unfold createdFor in Hc. lia.
    + specialize (Ho r). unfold createdFor in Ho. lia.
Qed.

Lemma RegistryRely_refl w : RegistryRely w w.
Proof. intros r c H. exact H. Qed.

Lemma RegistryRely_trans w1 w2 w3 :
  RegistryRely w1 w2 -> RegistryRely w2 w3 -> RegistryRely w1 w3.
Proof. intros H1 H2 r c H. auto. Qed.

Lemma RegistryRely_registered root w :
  JsMap.has root (clients w) = false -> RegistryRely w (registered root w).
Proof.
  intros Hc r c H. unfold registered. cbn.
  destruct (String.eqb_spec r root) as [->|Hne].
  - apply JsMapFacts.has_false_get in Hc. congruence.
  - now rewrite JsMapFacts.get_set_other.
Qed.

Section SafeRules.

Variable Inv : World -> Prop.
Variable Rely : World -> World -> Prop.
Variable ok : Response -> Prop.

Local Abbreviation safe := (safe Inv Rely ok).

Lemma safe_bind {A B} (Post : B -> World -> World -> Prop) EPost
    (t : Task A) (f : A -> Task B) w0 w :
  safe (fun a w0' w' => safe Post EPost (f a) w0' w') EPost t w0 w ->
  safe Post EPost (bind t f) w0 w.
Proof.
  revert w0 w. induction t as [a|e|k IH|w1 k IH|q k IH]; intros w0 w; simpl; auto.
  intros (HI & HR & Hk). repeat split; auto.
Qed.

Lemma safe_try_catch {A} (Post : A -> World -> World -> Prop) EPost
    (t : Task A) (h : string -> Task A) w0 w :
  safe Post (fun e w0' w' => safe Post EPost (h e) w0' w') t w0 w ->
  safe Post EPost (try_catch t h) w0 w.
Proof.
  revert w0 w. induction t as [a|e|k IH|w1 k IH|q k IH]; intros w0 w; simpl; auto.
  intros (HI & HR & Hk). repeat split; auto.
Qed.

Lemma safe_mono {A} (Post Post' : A -> World -> World -> Prop)
    (EPost EPost' : string -> World -> World -> Prop) (t : Task A) w0 w :
  (forall a u0 u, Post a u0 u -> Post' a u0 u) ->
  (forall e u0 u, EPost e u0 u -> EPost' e u0 u) ->
  safe Post EPost t w0 w -> safe Post' EPost' t w0 w.
Proof.
  intros HP HE. revert w0 w.
  induction t as [a|e|k IH|w1 k IH|q k IH]; intros w0 w; simpl; auto.
  intros (HI & HR & Hk). repeat split; auto.
Qed.

End SafeRules.

Lemma holds_stable root c w w' :
  holds root c w -> RegistryRely w w' -> holds root c w'.
Proof. intros H HR. now apply HR. Qed.

(** Splits conjunctions, and nothing else. *)
Ltac conjs := repeat match goal with |- _ /\ _ => split end.

(** The registry of the goal's world is the registry of the hypothesis. *)
Ltac rely_same := let H := fresh in intros ? ? H; exact H.

Local Abbreviation rsafe := (safe RegistryInv RegistryRely notForeign).

(** Goals on worlds that differ from a world of the context in fields the
    invariant does not read, or by effects that make no client. *)
Ltac registry_ext :=
  match goal with
  | H : RegistryInv ?w |- RegistryInv _ =>
      apply (RegistryInv_ext w); [exact H|reflexivity|reflexivity| |];
      [ cbn; try (intros ? ?; eauto using has_pending_delete)
      | intros ?; unfold createdFor; cbn; rewrite ?filter_app, ?length_app; cbn; lia ]
  end.

Lemma call_safe {A} (Post : A -> World -> World -> Prop) EPost (body : Task A) w0 w :
  rsafe (fun a u0 u => RegistryInv u /\ RegistryRely u0 u /\
                       forall u', RegistryInv u' -> RegistryRely u u' -> Post a u' u')
        (fun e u0 u => RegistryInv u /\ RegistryRely u0 u /\
                       forall u', RegistryInv u' -> RegistryRely u u' -> EPost e u' u')
        body w0 w ->
  rsafe Post EPost (call body) w0 w.
Proof.
  intros H. unfold call. apply safe_try_catch. apply safe_bind.
  eapply safe_mono; [| |exact H]; cbn.
  - intros a u0 u (HI & HR & HP). auto.
  - intros e u0 u (HI & HR & HP). auto.
Qed.

Section OneCall.

Variable Uri : Type.
Variable toString : Uri -> string.
Variable scheme : Uri -> string.
Variable untitled : Uri.
Variable findLeanPackageRoot : Uri -> option Uri * option Uri * option Uri.

Local Abbreviation folderOf := (folderOf Uri untitled findLeanPackageRoot).
Local Abbreviation getLeanVersion :=
  (getLeanVersion Uri toString scheme untitled findLeanPackageRoot).
Local Abbreviation resolveVersion :=
  (resolveVersion Uri toString scheme untitled findLeanPackageRoot).
Local Abbreviation ensureClient :=
  (ensureClient Uri toString scheme untitled findLeanPackageRoot).
Local Abbreviation rootOf := (rootOf Uri toString untitled findLeanPackageRoot).

Variable root : string.
Variable c : LeanClient.

Lemma getLeanVersion_safe (u : Uri) w0 w :
  RegistryInv w -> RegistryRely w0 w -> holds root c w ->
  rsafe (fun vi u0 u' => RegistryInv u' /\ RegistryRely u0 u' /\ holds root c u' /\
                         isForeign vi = false)
        (fun _ u0 u' => RegistryInv u' /\ RegistryRely u0 u' /\ holds root c u')
        (getLeanVersion u) w0 w.
Proof.
  intros HI HR HH. unfold getLeanVersion. cbn.
  destruct (JsMap.has (toString (folderOf u)) (versions w)) eqn:Hhas; cbn.
  - conjs; auto.
    destruct (JsMap.get (toString (folderOf u)) (versions w)) eqn:E; [|reflexivity].
    eapply inv_versions; eauto.
  - destruct (String.eqb (scheme u) "untitled"); cbn.
    + conjs; auto. now apply RegistryInv_versions.
    + conjs; auto. intros r w' Hok HI' HR'.
      pose proof (holds_stable _ _ _ _ HH HR') as HH'.
      destruct r; cbn; conjs; auto using RegistryRely_refl.
      * apply RegistryInv_versions; auto.
      * rely_same.
      * exact (Hok v eq_refl).
Qed.

Lemma resolveVersion_safe (u : Uri) w0 w :
  RegistryInv w -> RegistryRely w0 w -> holds root c w ->
  rsafe (stepPost root c (fun vi => isForeign vi = false)) callEPost
        (resolveVersion None u) w0 w.
Proof.
  intros HI HR HH. unfold resolveVersion. apply call_safe.
  eapply safe_mono; [| |apply getLeanVersion_safe; eauto]; cbn.
  - intros vi u0 u1 (HI1 & HR1 & HH1 & Hf). conjs; auto.
    intros u' HI' HR'. unfold stepPost. conjs; auto using RegistryRely_refl.
    eapply holds_stable; eauto.
  - intros e u0 u1 (HI1 & HR1 & HH1). conjs; auto.
    intros u' HI' HR'. unfold callEPost. conjs; auto using RegistryRely_refl.
Qed.

Lemma ensureClient_setup_safe vi w0 w :
  RegistryInv w -> RegistryRely w0 w -> holds root c w -> isForeign vi = false ->
  rsafe (stepPost root c (fun continue => continue = true)) callEPost
        (ensureClient_setup root c vi) w0 w.
Proof.
  intros HI HR HH Hf. unfold ensureClient_setup. rewrite Hf.
  destruct (readyToStart vi); cbn.
  - conjs; auto; try registry_ext.
    intros r w' Hok HI' HR'.
    assert (HH' : holds root c w') by (eapply holds_stable; [exact HH|exact HR']).
    destruct r; cbn; unfold stepPost, callEPost; conjs; auto using RegistryRely_refl.
  - unfold stepPost. conjs; auto. registry_ext.
Qed.

End OneCall.

Lemma safe_bind_run {A B} (Post : B -> World -> World -> Prop) EPost
    (t : Task A) (f : A -> Task B) w0 w w1 a :
  run t w = (w1, Finished a) ->
  rsafe Post EPost (f a) w0 w1 ->
  rsafe Post EPost (bind t f) w0 w.
Proof.
  revert w. induction t as [x|e|k IH|w2 k IH|q k IH]; intros w; simpl.
  - now intros [= -> ->].
  - discriminate.
  - apply IH.
  - apply IH.
  - discriminate.
Qed.

Section EnsureSafe.

Variable Uri : Type.
Variable toString : Uri -> string.
Variable scheme : Uri -> string.
Variable untitled : Uri.
Variable findLeanPackageRoot : Uri -> option Uri * option Uri * option Uri.

Local Abbreviation ensureClient :=
  (ensureClient Uri toString scheme untitled findLeanPackageRoot).

(** A call of [ensureClient] started where the invariant holds keeps it at
    every hand-over and returns the connection of the registry. *)
Lemma ensureClient_safe uri w :
  RegistryInv w ->
  rsafe (callPost (rootOf Uri toString untitled findLeanPackageRoot uri)) callEPost
        (ensureClient uri None) w w.
Proof.
  intros HI. unfold ensureClient, rootOf.
  set (root := toString (folderOf Uri untitled findLeanPackageRoot uri)).
  cbn [bind get safe]. unfold JsMap.has at 1.
  destruct (JsMap.get root (clients w)) as [c|] eqn:Hg.
  - cbn. unfold callPost, returnsRegistered. conjs.
    + registry_ext.
    + rely_same.
    + exists c. cbn. auto.
  - destruct (JsMap.has root (pending w)) eqn:Hp; cbn [negb].
    + apply (inv_pending _ HI) in Hp. unfold JsMap.has in Hp. rewrite Hg in Hp. discriminate.
    + assert (Hc : JsMap.has root (clients w) = false) by (unfold JsMap.has; now rewrite Hg).
      eapply safe_bind_run; [reflexivity|].
      set (c := mkLeanClient (nextId w) root).
      change (fst (run (ensureClient_create root) w)) with (registered root w).
      apply safe_bind.
      eapply safe_mono;
        [| |apply (resolveVersion_safe Uri toString scheme untitled findLeanPackageRoot root c)].
      * intros vi u0 u (HIu & HRu & HHu & Hf). apply safe_bind.
        eapply safe_mono; [| |apply (ensureClient_setup_safe root c vi); eauto].
        -- intros continue v0 v (HIv & HRv & HHv & ->). cbn.
           unfold callPost, returnsRegistered. conjs.
           ++ registry_ext.
           ++ exact HRv.
           ++ exists c. cbn. auto.
        -- auto.
      * auto.
      * now apply RegistryInv_registered.
      * now apply RegistryRely_registered.
      * apply registered_clients.
Qed.

Local Abbreviation callOk' := (callOk Uri toString untitled findLeanPackageRoot).
Local Abbreviation SchedInv' := (SchedInv Uri toString untitled findLeanPackageRoot).
Local Abbreviation step' := (step Uri toString scheme untitled findLeanPackageRoot).
Local Abbreviation exec' := (exec Uri toString scheme untitled findLeanPackageRoot).

Lemma callOk_stable w w' call :
  callOk' w call -> RegistryRely w w' -> callOk' w' call.
Proof.
  unfold callOk. destruct call as [uri [r|e|q k]]; cbn; auto.
  - intros (c & Hr & Hg) HR. exists c. auto.
  - intros (ws & HRs & Hk) HR. exists ws. split; auto.
    eapply RegistryRely_trans; eauto.
Qed.

Lemma Forall_replace_nth {A} (P : A -> Prop) i a (l : list A) :
  Forall P l -> P a -> Forall P (replace_nth i a l).
Proof.
  intros Hl Ha. revert i. induction Hl as [|x l Hx Hl IH]; intros i; cbn.
  - constructor.
  - destruct i; constructor; auto.
Qed.

(** The outcome of a segment of a safe call. *)
Lemma segment_ok uri (t : Task (bool * option LeanClient)) w :
  rsafe (callPost (rootOf Uri toString untitled findLeanPackageRoot uri)) callEPost t w w ->
  RegistryInv (fst (run t w)) /\
  RegistryRely w (fst (run t w)) /\
  callOk' (fst (run t w)) (mkCall Uri uri (snd (run t w))).
Proof.
  intros H. apply safe_run in H.
  destruct (run t w) as [w' [r|e|q k]]; cbn; unfold callOk; cbn.
  - destruct H as (HI & HR & HP). auto.
  - destruct H as (HI & HR). auto.
  - destruct H as (HI & HR & Hk). conjs; auto.
    exists w'. split; [apply RegistryRely_refl|]. auto.
Qed.

Lemma step_SchedInv s ev :
  SchedInv' s ->
  (forall i r, ev = Settle i r -> notForeign r) ->
  SchedInv' (step' s ev).
Proof.
  intros [HI HC] Hok. destruct ev as [uri|i r]; unfold step.
  - destruct (segment_ok uri _ _ (ensureClient_safe uri _ HI)) as (HI' & HR' & HC').
    destruct (run (ensureClient uri None) (world Uri s)) as [w' o]. cbn in *.
    split; [assumption|]. apply Forall_app. split.
    + eapply Forall_impl; [|exact HC]. intros call Hcall.
      eapply callOk_stable; eauto.
    + constructor; [assumption|constructor].
  - destruct (nth_error (calls Uri s) i) as [[uri [r0|e|q k]]|] eqn:E;
      try (split; assumption).
    pose proof (proj1 (Forall_forall _ _) HC _ (nth_error_In _ _ E)) as Hcall.
    unfold callOk in Hcall; cbn in Hcall.
    destruct Hcall as (ws & HRs & Hk).
    specialize (Hk r (world Uri s) (Hok i r eq_refl) HI HRs).
    destruct (segment_ok uri _ _ Hk) as (HI' & HR' & HC').
    destruct (run (k r) (world Uri s)) as [w' o]. cbn in *.
    split; [assumption|]. apply Forall_replace_nth; [|assumption].
    eapply Forall_impl; [|exact HC]. intros call Hcall.
    eapply callOk_stable; eauto.
Qed.

Lemma exec_SchedInv events s :
  SchedInv' s -> noForeign events -> SchedInv' (exec' events s).
Proof.
  revert s. induction events as [|ev events IH]; intros s HS Hok; cbn [exec fold_left]; auto.
  apply IH.
  - apply step_SchedInv; auto. intros i r ->. apply (Hok i r). now left.
  - intros i r Hin. apply (Hok i r). now right.
Qed.

Lemma RegistryInv_empty : RegistryInv emptyWorld.
Proof. constructor; cbn; auto; discriminate. Qed.

End EnsureSafe.

Section OneConnection.

Variable Uri : Type.
Variable toString : Uri -> string.
Variable scheme : Uri -> string.
Variable untitled : Uri.
Variable findLeanPackageRoot : Uri -> option Uri * option Uri * option Uri.

Local Abbreviation ensureClient' :=
  (ensureClient Uri toString scheme untitled findLeanPackageRoot).
Local Abbreviation rootOf' := (rootOf Uri toString untitled findLeanPackageRoot).
Local Abbreviation exec' := (exec Uri toString scheme untitled findLeanPackageRoot).

(** The first segment of a call on a root without connection and without
    guard ends suspended, with the new client in the registry. *)
Lemma ensureClient_registers_first uri w :
  let root := rootOf' uri in
  JsMap.has root (clients w) = false ->
  JsMap.has root (pending w) = false ->
  exists w1 q k,
    run (ensureClient' uri None) w = (w1, Suspended q k) /\
    JsMap.get root (clients w1) = Some (mkLeanClient (nextId w) root) /\
    createdFor root w1 = S (createdFor root w).
Proof.
  intros root Hc Hp. unfold ensureClient, rootOf in *. fold root.
  cbn [bind get run]. rewrite Hc, Hp. cbn.
  set (u := folderOf Uri untitled findLeanPackageRoot uri).
  set (p := toString (folderOf Uri untitled findLeanPackageRoot u)).
  assert (Hcr : forall l,
    length (filter (isNewClientFor root)
      ((l ++ [ELog ("Creating LeanClient for " ++ root)]) ++
       [ENewClient (mkLeanClient (nextId w) root)]))
    = S (length (filter (isNewClientFor root) l))).
  { intros l. rewrite !filter_app, !length_app. cbn. rewrite String.eqb_refl. cbn. lia. }
  destruct (JsMap.has p (versions w)); cbn.
  - do 3 eexists. split; [reflexivity|]. cbn. split.
    + apply JsMapFacts.get_set_same.
    + unfold createdFor. cbn. apply Hcr.
  - destruct (String.eqb (scheme u) "untitled"); cbn.
    + do 3 eexists. split; [reflexivity|]. cbn. split.
      * apply JsMapFacts.get_set_same.
      * unfold createdFor. cbn. apply Hcr.
    + do 3 eexists. split; [reflexivity|]. cbn. split.
      * apply JsMapFacts.get_set_same.
      * unfold createdFor. cbn. apply Hcr.
Qed.


End OneConnection.


(** ** Restarts and removals *)

(** C5 at a failing input: the infoview subscribes to
    [$/lean/fileProgress] while the connection of [/ws] is active, which
    attaches one handler to it; each later [restarted] event of that
    connection attaches one more and disposes none, so after one restart
    the method has two handlers on the connection and after two it has
    three, under a reference count of 1. *)
Theorem restart_accumulates_handlers :
  refCount (serverNotifSubscriptions InfoRuns.subscribed) InfoRuns.fileProgress = 1%Z /\
  length (installedOn InfoRuns.fileProgress Ws.client_ws InfoRuns.subscribed) = 1 /\
  refCount (serverNotifSubscriptions InfoRuns.restarted_once) InfoRuns.fileProgress = 1%Z /\
  length (installedOn InfoRuns.fileProgress Ws.client_ws InfoRuns.restarted_once) = 2 /\
  length (handlersOf (serverNotifSubscriptions InfoRuns.restarted_once)
                     InfoRuns.fileProgress) = 2 /\
  length (installedOn InfoRuns.fileProgress Ws.client_ws InfoRuns.restarted_twice) = 3.
Proof. vm_compute. repeat split. Qed.

Lemma get_not_in_keys {V} k (m : JsMap.t V) :
  ~ In k (JsMap.keys m) -> JsMap.get k m = None.
Proof.
  induction m as [|[k' v] r IH]; cbn; auto.
  intros H. destruct (String.eqb_spec k k') as [->|Hne].
  - exfalso. apply H. now left.
  - apply IH. intros Hin. apply H. now right.
Qed.

Lemma get_in_keys {V} k (m : JsMap.t V) v :
  JsMap.get k m = Some v -> In k (JsMap.keys m).
Proof.
  intros H. destruct (in_dec string_dec k (JsMap.keys m)) as [Hin|Hn]; auto.
  rewrite (get_not_in_keys k m Hn) in H. discriminate.
Qed.

(** The loop of [clearRpcSessions] for a connection [c]: the timers of the
    sessions of [c] are cleared, in order, and [remaining] receives the
    other sessions. *)
Lemma clearRpcSessions_loop_run c sessions remaining w :
  NoDup (JsMap.keys sessions) ->
  (forall k, In k (JsMap.keys sessions) -> JsMap.get k remaining = None) ->
  exists rem',
    run (clearRpcSessions_loop (Some c) sessions remaining) w
      = (emits (map (fun s => EClearInterval (keepAliveInterval s))
                    (filter (fun s => same_client (sessClient s) c)
                            (JsMap.values sessions))) w,
         Finished rem') /\
    forall sid,
      JsMap.get sid rem' =
      match JsMap.get sid sessions with
      | Some s => if same_client (sessClient s) c then None else Some s
      | None => JsMap.get sid remaining
      end.
Proof.
  revert remaining w.
  induction sessions as [|[sid0 s0] rest IH]; intros remaining w Hnd Hrem.
  - exists remaining. cbn. rewrite emits_nil. auto.
  - cbn in Hnd. inversion Hnd as [|? ? Hnotin Hnd']; subst.
    destruct (same_client (sessClient s0) c) eqn:Eo.
    + assert (Hstep :
        run (clearRpcSessions_loop (Some c) ((sid0, s0) :: rest) remaining) w
        = run (clearRpcSessions_loop (Some c) rest remaining)
              (emit (EClearInterval (keepAliveInterval s0)) w)).
      { cbn [clearRpcSessions_loop]. rewrite Eo. reflexivity. }
      destruct (IH remaining (emit (EClearInterval (keepAliveInterval s0)) w) Hnd')
        as (rem' & Hrun & Hget).
      { intros k Hk. apply Hrem. now right. }
      exists rem'. rewrite Hstep, Hrun. cbn [JsMap.values map snd filter].
      rewrite Eo. cbn [map]. rewrite emits_emit. split; [reflexivity|].
      intros sid. rewrite Hget. cbn [JsMap.get].
      destruct (String.eqb_spec sid sid0) as [->|Hne]; [|reflexivity].
      rewrite (get_not_in_keys _ _ Hnotin), Eo. apply Hrem. now left.
    + assert (Hstep :
        run (clearRpcSessions_loop (Some c) ((sid0, s0) :: rest) remaining) w
        = run (clearRpcSessions_loop (Some c) rest (JsMap.set sid0 s0 remaining)) w).
      { cbn [clearRpcSessions_loop]. rewrite Eo. reflexivity. }
      destruct (IH (JsMap.set sid0 s0 remaining) w Hnd') as (rem' & Hrun & Hget).
      { intros k Hk. rewrite JsMapFacts.get_set_other.
        - apply Hrem. now right.
        - intros ->. contradiction. }
      exists rem'. rewrite Hstep, Hrun. cbn [JsMap.values map snd filter].
      rewrite Eo. split; [reflexivity|].
      intros sid. rewrite Hget. cbn [JsMap.get].
      destruct (String.eqb_spec sid sid0) as [->|Hne].
      * rewrite (get_not_in_keys _ _ Hnotin), Eo. apply JsMapFacts.get_set_same.
      * rewrite JsMapFacts.get_set_other by assumption. reflexivity.
Qed.

(** What the [restarted] listener relies on: [clearRpcSessions(client)]
    removes the sessions of [client], clears their timers and no other,
    and keeps every other session as it is. *)
Lemma clearRpcSessions_of_client c w :
  NoDup (JsMap.keys (rpcSessions w)) ->
  let w' := fst (run (clearRpcSessions (Some c)) w) in
  snd (run (clearRpcSessions (Some c)) w) = Finished tt /\
  (forall sid,
     JsMap.get sid (rpcSessions w') =
     match JsMap.get sid (rpcSessions w) with
     | Some s => if same_client (sessClient s) c then None else Some s
     | None => None
     end) /\
  trace w' = (trace w ++ map (fun s => EClearInterval (keepAliveInterval s))
                             (filter (fun s => same_client (sessClient s) c)
                                     (JsMap.values (rpcSessions w))))%list.
Proof.
  intros Hnd. unfold clearRpcSessions. cbn [bind get run].
  destruct (clearRpcSessions_loop_run c (rpcSessions w) JsMap.empty w Hnd)
    as (rem' & Hrun & Hget); [reflexivity|].
  rewrite run_bind, Hrun. cbn. conjs; auto.
Qed.

(** C6 at a failing input: the connection of [/ws] owns the session
    [session-1].  When the folder is removed from the workspace, or when
    the server fails, the connection is disposed, yet the session stays in
    the table and its heartbeat timer is not cleared.  Only the [restarted]
    listener clears the sessions of a connection. *)
Theorem disposed_connection_keeps_sessions :
  JsMap.get "session-1" (rpcSessions InfoRuns.session_open) = Some InfoRuns.session1 /\
  (clientDisposed Ws.client_ws InfoRuns.folder_removed = true /\
   JsMap.get "file:///ws" (clients InfoRuns.folder_removed) = None /\
   JsMap.get "session-1" (rpcSessions InfoRuns.folder_removed) = Some InfoRuns.session1 /\
   timerCleared 1 InfoRuns.folder_removed = false) /\
  (clientDisposed Ws.client_ws InfoRuns.server_failed = true /\
   JsMap.get "session-1" (rpcSessions InfoRuns.server_failed) = Some InfoRuns.session1 /\
   timerCleared 1 InfoRuns.server_failed = false) /\
  (JsMap.get "session-1" (rpcSessions InfoRuns.session_restarted) = None /\
   timerCleared 1 InfoRuns.session_restarted = true).
Proof. vm_compute. repeat split. Qed.

(** ** The theorems at concrete inputs *)


Lemma ensureClient_foreign_workspace_witness :
  JsMap.has "file:///ws" (clients emptyWorld) = false /\
  JsMap.has "file:///ws" (pending emptyWorld) = false /\
  drive (Inputs.resolveVersion None Ws.ws) Inputs.answers_lean3
        (registered "file:///ws" emptyWorld)
    = (Inputs.resolved Inputs.answers_lean3, Finished (Some Ws.lean3), []) /\
  version Ws.lean3 <> "" /\ version Ws.lean3 <> "4" /\
  exists w3,
    drive (Ws.ensureClient Inputs.main None) Inputs.answers_lean3 emptyWorld
      = (w3, Finished (false, None), []) /\
    JsMap.get "file:///ws" (clients w3) = None /\
    JsMap.has "file:///ws" (pending w3) = false /\
    In (EDisposeClient Ws.client_ws) (trace w3).
Proof.
  assert (H0 : version Ws.lean3 <> "") by discriminate.
  assert (H4 : version Ws.lean3 <> "4") by discriminate.
  split; [reflexivity|]. split; [reflexivity|]. split; [reflexivity|].
  split; [assumption|]. split; [assumption|].
  destruct (ensureClient_foreign_workspace
              Ws.Uri Ws.toString Ws.scheme Ws.untitled Ws.findLeanPackageRoot
              Inputs.main None Inputs.answers_lean3 [] emptyWorld
              (Inputs.resolved Inputs.answers_lean3) Ws.lean3
              eq_refl eq_refl eq_refl H0 H4) as (_ & w3 & Hd & Hc & Hp & Hdis & _).
  exists w3. conjs; assumption.
Defined.

Lemma ensureClient_added_and_started_witness :
  JsMap.has "file:///ws" (clients emptyWorld) = false /\
  JsMap.has "file:///ws" (pending emptyWorld) = false /\
  drive (Inputs.resolveVersion None Ws.ws) Inputs.answers_noToolchain
        (registered "file:///ws" emptyWorld)
    = (Inputs.resolved Inputs.answers_noToolchain, Finished (Some Ws.lean4_noToolchain), []) /\
  version Ws.lean4_noToolchain = "4" /\
  drive (Ws.ensureClient Inputs.main None) Inputs.answers_noToolchain emptyWorld
    = (with_activeClient (Some Ws.client_ws)
         (fst (run (ensureClient_setup "file:///ws" Ws.client_ws (Some Ws.lean4_noToolchain))
                   (Inputs.resolved Inputs.answers_noToolchain))),
       Finished (false, Some Ws.client_ws), []).
Proof.
  split; [reflexivity|]. split; [reflexivity|]. split; [reflexivity|].
  split; [reflexivity|].
  apply (ensureClient_added_and_started
           Ws.Uri Ws.toString Ws.scheme Ws.untitled Ws.findLeanPackageRoot
           Inputs.main None Inputs.answers_noToolchain [] emptyWorld
           (Inputs.resolved Inputs.answers_noToolchain) Ws.lean4_noToolchain
           eq_refl eq_refl eq_refl eq_refl).
  reflexivity.
Defined.

Lemma installChanged_drop_or_restart_witness :
  JsMap.has Inputs.toolchain (testing Inputs.handling) = true /\
  run (Ws.installChanged Inputs.toolchain) Inputs.handling
    = (emit (ELog ("Blocking re-entrancy on " ++ Inputs.toolchain)) Inputs.handling,
       Finished tt) /\
  JsMap.has Inputs.toolchain (testing Ws.opened_ws) = false /\
  exists k,
    drive (Ws.installChanged Inputs.toolchain)
          [Ws.quiet (RVersion Ws.lean4); Ws.quiet RUnit] Ws.opened_ws
      = (emit (ERestart Ws.client_ws)
           (with_activeClient (Some Ws.client_ws)
              (with_testing (JsMap.set Inputs.toolchain true) Ws.opened_ws)),
         Suspended (ClientRestart Ws.client_ws) k, []).
Proof.
  split; [reflexivity|]. split.
  - apply (proj1 (installChanged_drop_or_restart
                    Ws.Uri Ws.toString Ws.scheme Ws.untitled Ws.findLeanPackageRoot
                    Inputs.toolchain Inputs.handling)).
    reflexivity.
  - split; [reflexivity|].
    apply (proj2 (installChanged_drop_or_restart
                    Ws.Uri Ws.toString Ws.scheme Ws.untitled Ws.findLeanPackageRoot
                    Inputs.toolchain Ws.opened_ws)
                 eq_refl Ws.lean4 Ws.client_ws (fun w => w) (fun w => w) RUnit
                 eq_refl eq_refl).
Defined.

Lemma createRpcSession_no_client_witness :
  findClient "file:///elsewhere/X.lean" Ws.opened_ws = None /\
  run (createRpcSession "file:///elsewhere/X.lean") Ws.opened_ws
    = (Ws.opened_ws, Finished "").
Proof.
  split; [reflexivity|]. apply createRpcSession_no_client. reflexivity.
Defined.

Lemma createRpcSession_panel_closed_witness :
  findClient Inputs.main InfoRuns.panel_open = Some Ws.client_ws /\
  webviewPanel (with_webviewPanel false InfoRuns.panel_open) = false /\
  exists w4,
    drive (createRpcSession Inputs.main)
          [(RConnected "session-1", with_webviewPanel false); Ws.quiet RUnit]
          InfoRuns.panel_open
      = (w4, Failed "infoview disconnect while connecting to RPC session", []) /\
    rpcSessions w4 = rpcSessions (with_webviewPanel false InfoRuns.panel_open) /\
    trace w4 = (trace (with_webviewPanel false InfoRuns.panel_open)
                ++ [ESetInterval 1; EClearInterval 1])%list.
Proof.
  split; [reflexivity|]. split; [reflexivity|].
  apply (createRpcSession_panel_closed Inputs.main "session-1" InfoRuns.panel_open
           Ws.client_ws (with_webviewPanel false) (fun w => w) RUnit eq_refl eq_refl).
Defined.

Lemma unsubscribe_reference_count_witness :
  JsMap.get "$/lean/fileProgress" (serverNotifSubscriptions Inputs.two_methods)
    = Some (2%Z, [Inputs.handle0]) /\
  refCount (serverNotifSubscriptions
              (fst (run (unsubscribeServerNotifications "$/lean/fileProgress")
                        Inputs.two_methods)))
           "$/lean/fileProgress" = 1%Z /\
  JsMap.get "textDocument/publishDiagnostics" (serverNotifSubscriptions Inputs.two_methods)
    = Some (1%Z, [Inputs.handle1]) /\
  JsMap.has "textDocument/publishDiagnostics"
    (serverNotifSubscriptions
       (fst (run (unsubscribeServerNotifications "textDocument/publishDiagnostics")
                 Inputs.two_methods))) = false.
Proof.
  destruct unsubscribe_reference_count as (Hs & _).
  destruct (Hs "$/lean/fileProgress" Inputs.two_methods) as (H2 & _ & _).
  destruct (Hs "textDocument/publishDiagnostics" Inputs.two_methods) as (_ & H1 & _).
  split; [reflexivity|]. split.
  - apply (H2 2%Z [Inputs.handle0] eq_refl eq_refl).
  - split; [reflexivity|]. apply (H1 [Inputs.handle1] eq_refl).
Defined.

Lemma noForeign_lean4_twice : noForeign WsRuns.lean4_twice.
Proof.
  intros i r Hin v ->. cbn in Hin.
  repeat (destruct Hin as [Hin|Hin]; [inversion Hin; subst; reflexivity || discriminate|]).
  contradiction.
Defined.


(** ** More on the notification tables *)

Lemma set_get_id {V} k (v : V) m : JsMap.get k m = Some v -> JsMap.set k v m = m.
Proof.
  induction m as [|[k' v'] r IH]; cbn; [discriminate|].
  destruct (String.eqb_spec k k') as [->|Hne].
  - now intros [= ->].
  - intros H. now rewrite IH.
Qed.

Lemma set_set_same {V} k (v v' : V) m :
  JsMap.set k v (JsMap.set k v' m) = JsMap.set k v m.
Proof.
  induction m as [|[k0 v0] r IH]; cbn.
  - now rewrite String.eqb_refl.
  - destruct (String.eqb k k0) eqn:E; cbn; rewrite ?E, ?String.eqb_refl; auto.
    now rewrite IH.
Qed.

Lemma delete_absent {V} k (m : JsMap.t V) : JsMap.get k m = None -> JsMap.delete k m = m.
Proof.
  induction m as [|[k' v'] r IH]; cbn; auto.
  destruct (String.eqb k k'); [discriminate|]. intros H. now rewrite IH.
Qed.

Lemma delete_set_absent {V} k (v : V) m :
  JsMap.get k m = None -> JsMap.delete k (JsMap.set k v m) = m.
Proof.
  induction m as [|[k' v'] r IH]; cbn.
  - now rewrite String.eqb_refl.
  - destruct (String.eqb k k') eqn:E; [discriminate|]. cbn. rewrite E.
    intros H. now rewrite IH.
Qed.

Lemma emits_app es es' w : emits es' (emits es w) = emits (es ++ es') w.
Proof. unfold emits. cbn. now rewrite app_assoc. Qed.

Lemma freshHandles_clients kind method n cs :
  map hclient (freshHandles kind method n cs) = cs.
Proof. revert n. induction cs as [|c cs IH]; intros n; cbn; [|rewrite IH]; auto. Qed.

Lemma freshHandles_ids kind method n cs :
  map hid (freshHandles kind method n cs) = seq n (length cs).
Proof. revert n. induction cs as [|c cs IH]; intros n; cbn; [|rewrite IH]; auto. Qed.

Lemma freshHandles_same kind method n cs h :
  In h (freshHandles kind method n cs) -> hkind h = kind /\ hmethod h = method.
Proof.
  revert n. induction cs as [|c cs IH]; intros n; cbn; [contradiction|].
  intros [<-|Hin]; eauto.
Qed.

(** [subscribeAll] attaches one handler to each client of the list, in
    order, with consecutive new identities. *)
Lemma subscribeAll_run kind cs method w :
  run (subscribeAll (attach kind) cs method) w =
  (emits (map EAttach (freshHandles kind method (nextId w) cs))
         (with_nextId (nextId w + length cs) w),
   Finished (freshHandles kind method (nextId w) cs)).
Proof.
  revert w. induction cs as [|c cs IH]; intros w; cbn.
  - rewrite Nat.add_0_r. destruct w. unfold emits, with_nextId. cbn.
    now rewrite app_nil_r.
  - rewrite run_bind, IH. cbn. unfold emits, with_nextId. cbn.
    rewrite <- app_assoc. cbn. now rewrite Nat.add_succ_r.
Qed.

Lemma subscribeServer_first_run method w :
  JsMap.get method (serverNotifSubscriptions w) = None ->
  serverSupported method = true ->
  run (subscribeServerNotifications method) w =
  (with_serverNotif
     (JsMap.set method
        (1%Z, freshHandles (serverKind method) method (nextId w) (getClients w)))
     (emits (map EAttach (freshHandles (serverKind method) method (nextId w) (getClients w)))
            (with_nextId (nextId w + length (getClients w)) w)),
   Finished tt).
Proof.
  intros Hg Hs. unfold subscribeServerNotifications, serverSupported, serverKind in *.
  cbn [bind get run]. rewrite Hg.
  destruct (String.eqb method "textDocument/publishDiagnostics") eqn:E.
  - unfold subscribeDiagnosticsNotification. now rewrite run_bind, subscribeAll_run.
  - cbn in Hs. rewrite Hs. unfold subscribeCustomNotification.
    now rewrite run_bind, subscribeAll_run.
Qed.

Lemma subscribeClient_first_run method w :
  JsMap.get method (clientNotifSubscriptions w) = None ->
  clientSupported method = true ->
  run (subscribeClientNotifications method) w =
  (with_clientNotif
     (JsMap.set method
        (1%Z, freshHandles (clientKind method) method (nextId w) (getClients w)))
     (emits (map EAttach (freshHandles (clientKind method) method (nextId w) (getClients w)))
            (with_nextId (nextId w + length (getClients w)) w)),
   Finished tt).
Proof.
  intros Hg Hs. unfold subscribeClientNotifications, clientSupported, clientKind in *.
  cbn [bind get run]. rewrite Hg.
  destruct (String.eqb method "textDocument/didChange") eqn:E.
  - unfold subscribeDidChangeNotification. now rewrite run_bind, subscribeAll_run.
  - cbn in Hs. rewrite Hs. unfold subscribeDidCloseNotification.
    now rewrite run_bind, subscribeAll_run.
Qed.

(** X1: the first subscription to a supported method attaches exactly one
    handler to every active connection, in the order of the registry, on
    the emitter that goes with the method, and enters them under count 1;
    the other table is left alone. *)
Theorem subscribe_first_attaches_per_client (method : string) (w : World) :
  (JsMap.get method (serverNotifSubscriptions w) = None ->
   serverSupported method = true ->
   let w' := fst (run (subscribeServerNotifications method) w) in
   snd (run (subscribeServerNotifications method) w) = Finished tt /\
   refCount (serverNotifSubscriptions w') method = 1%Z /\
   map hclient (handlersOf (serverNotifSubscriptions w') method) = getClients w /\
   (forall h, In h (handlersOf (serverNotifSubscriptions w') method) ->
              hkind h = serverKind method /\ hmethod h = method) /\
   trace w' = (trace w ++ map EAttach (handlersOf (serverNotifSubscriptions w') method))%list /\
   clientNotifSubscriptions w' = clientNotifSubscriptions w) /\
  (JsMap.get method (clientNotifSubscriptions w) = None ->
   clientSupported method = true ->
   let w' := fst (run (subscribeClientNotifications method) w) in
   snd (run (subscribeClientNotifications method) w) = Finished tt /\
   refCount (clientNotifSubscriptions w') method = 1%Z /\
   map hclient (handlersOf (clientNotifSubscriptions w') method) = getClients w /\
   (forall h, In h (handlersOf (clientNotifSubscriptions w') method) ->
              hkind h = clientKind method /\ hmethod h = method) /\
   trace w' = (trace w ++ map EAttach (handlersOf (clientNotifSubscriptions w') method))%list /\
   serverNotifSubscriptions w' = serverNotifSubscriptions w).
Proof.
  split; intros Hg Hs w'; subst w'.
  - rewrite (subscribeServer_first_run method w Hg Hs). cbn.
    unfold refCount, handlersOf. rewrite !JsMapFacts.get_set_same.
    conjs; auto using freshHandles_clients. apply freshHandles_same.
  - rewrite (subscribeClient_first_run method w Hg Hs). cbn.
    unfold refCount, handlersOf. rewrite !JsMapFacts.get_set_same.
    conjs; auto using freshHandles_clients. apply freshHandles_same.
Qed.

(** X2: subscribing to a method that is neither subscribed nor supported
    raises the "not implemented" error and changes nothing. *)
Theorem subscribe_unsupported_fails (method : string) (w : World) :
  (JsMap.get method (serverNotifSubscriptions w) = None ->
   serverSupported method = false ->
   run (subscribeServerNotifications method) w =
   (w, Failed ("subscription to " ++ method ++ " server notifications not implemented"))) /\
  (JsMap.get method (clientNotifSubscriptions w) = None ->
   clientSupported method = false ->
   run (subscribeClientNotifications method) w =
   (w, Failed ("Subscription to '" ++ method ++ "' client notifications not implemented"))).
Proof.
  split; intros Hg Hs.
  - unfold subscribeServerNotifications, serverSupported in *. cbn [bind get run].
    rewrite Hg. apply orb_false_elim in Hs. destruct Hs as [-> ->]. reflexivity.
  - unfold subscribeClientNotifications, clientSupported in *. cbn [bind get run].
    rewrite Hg. apply orb_false_elim in Hs. destruct Hs as [-> ->]. reflexivity.
Qed.

Lemma subscribeServer_again_run method n hs w :
  JsMap.get method (serverNotifSubscriptions w) = Some (n, hs) ->
  run (subscribeServerNotifications method) w =
  (with_serverNotif (JsMap.set method ((n + 1)%Z, hs)) w, Finished tt).
Proof.
  intros Hg. unfold subscribeServerNotifications. cbn [bind get run]. now rewrite Hg.
Qed.

Lemma subscribeClient_again_run method n hs w :
  JsMap.get method (clientNotifSubscriptions w) = Some (n, hs) ->
  run (subscribeClientNotifications method) w =
  (with_clientNotif (JsMap.set method ((n + 1)%Z, hs)) w, Finished tt).
Proof.
  intros Hg. unfold subscribeClientNotifications. cbn [bind get run]. now rewrite Hg.
Qed.

Lemma subscribeServer_restores :
  restores_table serverNotifSubscriptions serverSupported
    subscribeServerNotifications unsubscribeServerNotifications.
Proof.
  intros method w w1 w2 Hcount Hsup. subst w1 w2.
  destruct (JsMap.get method (serverNotifSubscriptions w)) as [[n hs]|] eqn:Hg.
  - pose proof (counted_entry _ _ _ _ Hcount Hg) as Hn.
    rewrite (subscribeServer_again_run method n hs w Hg). cbn [fst snd].
    unfold unsubscribeServerNotifications. cbn [bind get run].
    cbn [serverNotifSubscriptions with_serverNotif]. rewrite JsMapFacts.get_set_same.
    destruct (Z.eqb_spec (n + 1) 1); [lia|]. cbn.
    replace (n + 1 - 1)%Z with n by lia.
    rewrite set_set_same, (set_get_id _ _ _ Hg).
    conjs; auto. unfold JsMap.has. rewrite Hg. discriminate.
  - assert (Hs : serverSupported method = true).
    { destruct Hsup as [H|H]; auto. unfold JsMap.has in H. rewrite Hg in H. discriminate. }
    rewrite (subscribeServer_first_run method w Hg Hs). cbn [fst snd].
    unfold unsubscribeServerNotifications. cbn [bind get run].
    cbn [serverNotifSubscriptions with_serverNotif emits with_nextId].
    rewrite JsMapFacts.get_set_same. cbn [Z.eqb Pos.eqb].
    rewrite run_bind, forEach_dispose. cbn.
    rewrite (delete_set_absent _ _ _ Hg).
    conjs; auto.
    + unfold JsMap.has. rewrite Hg. discriminate.
    + intros _. eexists. split; [apply freshHandles_clients|].
      now rewrite <- app_assoc.
Qed.

Lemma subscribeClient_restores :
  restores_table clientNotifSubscriptions clientSupported
    subscribeClientNotifications unsubscribeClientNotifications.
Proof.
  intros method w w1 w2 Hcount Hsup. subst w1 w2.
  destruct (JsMap.get method (clientNotifSubscriptions w)) as [[n hs]|] eqn:Hg.
  - pose proof (counted_entry _ _ _ _ Hcount Hg) as Hn.
    rewrite (subscribeClient_again_run method n hs w Hg). cbn [fst snd].
    unfold unsubscribeClientNotifications. cbn [bind get run].
    cbn [clientNotifSubscriptions with_clientNotif]. rewrite JsMapFacts.get_set_same.
    destruct (Z.eqb_spec (n + 1) 1); [lia|]. cbn.
    replace (n + 1 - 1)%Z with n by lia.
    rewrite set_set_same, (set_get_id _ _ _ Hg).
    conjs; auto. unfold JsMap.has. rewrite Hg. discriminate.
  - assert (Hs : clientSupported method = true).
    { destruct Hsup as [H|H]; auto. unfold JsMap.has in H. rewrite Hg in H. discriminate. }
    rewrite (subscribeClient_first_run method w Hg Hs). cbn [fst snd].
    unfold unsubscribeClientNotifications. cbn [bind get run].
    cbn [clientNotifSubscriptions with_clientNotif emits with_nextId].
    rewrite JsMapFacts.get_set_same. cbn [Z.eqb Pos.eqb].
    rewrite run_bind, forEach_dispose. cbn.
    rewrite (delete_set_absent _ _ _ Hg).
    conjs; auto.
    + unfold JsMap.has. rewrite Hg. discriminate.
    + intros _. eexists. split; [apply freshHandles_clients|].
      now rewrite <- app_assoc.
Qed.


(** ** More on the RPC sessions *)

(** X4: [closeRpcSession] removes the session of the id and clears its timer,
    leaving every other session alone; for an id without session it does
    nothing, so closing twice is closing once. *)
Theorem closeRpcSession_removes (sid : string) (w : World) :
  let w' := fst (run (closeRpcSession sid) w) in
  snd (run (closeRpcSession sid) w) = Finished tt /\
  JsMap.get sid (rpcSessions w') = None /\
  (forall other, other <> sid ->
     JsMap.get other (rpcSessions w') = JsMap.get other (rpcSessions w)) /\
  (forall s, JsMap.get sid (rpcSessions w) = Some s ->
     trace w' = (trace w ++ [EClearInterval (keepAliveInterval s)])%list) /\
  (JsMap.get sid (rpcSessions w) = None -> w' = w) /\
  run (closeRpcSession sid) w' = (w', Finished tt).
Proof.
  unfold closeRpcSession. cbn [bind get run].
  destruct (JsMap.get sid (rpcSessions w)) as [s|] eqn:Hg; cbn.
  - rewrite JsMapFacts.get_delete_same. conjs; auto.
    + intros other Hne. now apply JsMapFacts.get_delete_other.
    + now intros s' [= ->].
    + discriminate.
  - rewrite Hg. conjs; auto. discriminate.
Qed.

(** X5: when the panel is open in the world [w3] in which [createRpcSession]
    continues after the connect request, the session is entered under the
    id the server gave, owned by the connection [findClient] found when
    the call began, with a new heartbeat timer that is set and not
    cleared; no other id of the table is touched.  Closing that id then
    removes the session and clears the timer, and the table is again as in
    [w3] if the id was unused there. *)
Theorem createRpcSession_then_close
    (uri sid : string) (w : World) (c : LeanClient)
    (env1 env2 : World -> World) (r : Response) :
  let w3 := env2 (env1 w) in
  let session := mkRpcSession c sid uri (nextId w3) in
  let w4 := fst (fst (drive (createRpcSession uri)
                            [(RConnected sid, env1); (r, env2)] w)) in
  let w5 := fst (run (closeRpcSession sid) w4) in
  findClient uri w = Some c ->
  webviewPanel w3 = true ->
  drive (createRpcSession uri) [(RConnected sid, env1); (r, env2)] w
    = (w4, Finished sid, []) /\
  JsMap.get sid (rpcSessions w4) = Some session /\
  (forall other, other <> sid ->
     JsMap.get other (rpcSessions w4) = JsMap.get other (rpcSessions w3)) /\
  trace w4 = (trace w3 ++ [ESetInterval (nextId w3)])%list /\
  JsMap.get sid (rpcSessions w5) = None /\
  trace w5 = (trace w3 ++ [ESetInterval (nextId w3); EClearInterval (nextId w3)])%list /\
  (JsMap.get sid (rpcSessions w3) = None -> rpcSessions w5 = rpcSessions w3).
Proof.
  intros w3 session w4 w5 Hc Hp. subst w5 w4.
  unfold createRpcSession. cbn [bind get drive]. rewrite Hc. cbn.
  fold w3. rewrite Hp. cbn.
  unfold closeRpcSession. cbn [bind get run]. cbn [rpcSessions with_rpcSessions emit with_nextId].
  rewrite !JsMapFacts.get_set_same. cbn.
  rewrite JsMapFacts.get_delete_same.
  conjs; auto.
  - intros other Hne. now apply JsMapFacts.get_set_other.
  - now rewrite <- app_assoc.
  - intros Hg. now apply delete_set_absent.
Qed.

(** The loop of [clearRpcSessions(null)] clears the timer of every
    session, in order, and leaves [remaining] as it is. *)
Lemma clearRpcSessions_loop_all sessions remaining w :
  run (clearRpcSessions_loop None sessions remaining) w
  = (emits (clearTimers (JsMap.values sessions)) w, Finished remaining).
Proof.
  revert w. induction sessions as [|[sid s] rest IH]; intros w.
  - cbn. now rewrite emits_nil.
  - cbn [clearRpcSessions_loop]. unfold RpcSession_dispose, effect, modify.
    cbn [bind run]. rewrite IH. unfold clearTimers. cbn. now rewrite emits_emit.
Qed.

(** [clearRpcSessions(null)] empties the session table and clears the
    heartbeat timer of every session that was in it. *)
Lemma clearRpcSessions_all (w : World) :
  run (clearRpcSessions None) w
  = (with_rpcSessions (fun _ => JsMap.empty)
       (emits (clearTimers (JsMap.values (rpcSessions w))) w),
     Finished tt).
Proof.
  unfold clearRpcSessions. cbn [bind get run].
  rewrite run_bind, clearRpcSessions_loop_all. reflexivity.
Qed.

Lemma forEach_dispose_entries (entries : list (Z * list Handle)) w :
  run (forEach entries (fun entry => forEach (snd entry) Handle_dispose)) w
  = (emits (map EDisposeHandle (flat_map (fun entry => snd entry) entries)) w, Finished tt).
Proof.
  revert w. induction entries as [|e rest IH]; intros w.
  - cbn. now rewrite emits_nil.
  - cbn [forEach]. rewrite run_bind, forEach_dispose, IH. cbn [flat_map].
    now rewrite emits_app, map_app.
Qed.

(** [clearNotificationHandlers] disposes every handle of the two tables,
    those of the client table first, and empties both. *)
Lemma clearNotificationHandlers_disposes_all (w : World) :
  run clearNotificationHandlers w
  = (with_serverNotif (fun _ => JsMap.empty)
       (with_clientNotif (fun _ => JsMap.empty)
          (emits (map EDisposeHandle (allHandles (clientNotifSubscriptions w)
                                      ++ allHandles (serverNotifSubscriptions w))) w)),
     Finished tt).
Proof.
  unfold clearNotificationHandlers, allHandles. cbn [bind get run].
  rewrite run_bind, forEach_dispose_entries. cbn [bind modify run].
  rewrite run_bind.
  cbn [serverNotifSubscriptions with_clientNotif emits].
  rewrite forEach_dispose_entries. cbn. unfold emits. cbn.
  now rewrite map_app, app_assoc.
Qed.

(** X7: when the panel is disposed, every handler of both tables is disposed,
    both tables and the session table are emptied, every heartbeat timer
    is cleared and the panel is gone; the registry, the guards and the
    version cache are not touched. *)
Theorem webviewPanel_onDidDispose_clears (w : World) :
  let w' := fst (run webviewPanel_onDidDispose w) in
  snd (run webviewPanel_onDidDispose w) = Finished tt /\
  webviewPanel w' = false /\
  serverNotifSubscriptions w' = JsMap.empty /\
  clientNotifSubscriptions w' = JsMap.empty /\
  rpcSessions w' = JsMap.empty /\
  trace w' = (trace w
              ++ map EDisposeHandle (allHandles (clientNotifSubscriptions w)
                                     ++ allHandles (serverNotifSubscriptions w))
              ++ clearTimers (JsMap.values (rpcSessions w)))%list /\
  clients w' = clients w /\ pending w' = pending w /\ testing w' = testing w /\
  versions w' = versions w /\ activeClient w' = activeClient w.
Proof.
  unfold webviewPanel_onDidDispose.
  rewrite run_bind, clearNotificationHandlers_disposes_all.
  cbn [bind modify run]. rewrite clearRpcSessions_all. cbn.
  conjs; auto. now rewrite <- app_assoc.
Qed.

(** X6: [clearRpcSessions] with a connection takes exactly the sessions of
    that connection out of the table and clears their timers, in table
    order; every other session stays under its id and no other timer is
    cleared.  With [null] it empties the table and clears every timer. *)
Theorem clearRpcSessions_by_owner (w : World) :
  (forall c,
     NoDup (JsMap.keys (rpcSessions w)) ->
     let w' := fst (run (clearRpcSessions (Some c)) w) in
     snd (run (clearRpcSessions (Some c)) w) = Finished tt /\
     (forall sid,
        JsMap.get sid (rpcSessions w') =
        match JsMap.get sid (rpcSessions w) with
        | Some s => if same_client (sessClient s) c then None else Some s
        | None => None
        end) /\
     trace w' = (trace w ++ clearTimers (filter (fun s => same_client (sessClient s) c)
                                                (JsMap.values (rpcSessions w))))%list) /\
  (let w' := fst (run (clearRpcSessions None) w) in
   snd (run (clearRpcSessions None) w) = Finished tt /\
   rpcSessions w' = JsMap.empty /\
   trace w' = (trace w ++ clearTimers (JsMap.values (rpcSessions w)))%list).
Proof.
  split.
  - intros c Hnd. exact (clearRpcSessions_of_client c w Hnd).
  - rewrite clearRpcSessions_all. cbn. auto.
Qed.

(** ** Guarantees over every run *)

Lemma ensures_drive {R} (Post : R -> World -> Prop) EPost (t : Task R) w answers :
  ensures Post EPost t w ->
  match drive t answers w with
  | (w', Finished r, _) => Post r w'
  | (w', Failed e, _) => EPost e w'
  | (_, Suspended _ _, _) => True
  end.
Proof.
  revert answers w. induction t as [a|e|k IH|w1 k IH|q k IH]; intros answers w; cbn; auto.
  - intros H. now apply IH.
  - intros H. now apply IH.
  - intros H. destruct answers as [|[r env] rest]; auto. apply IH, H.
Qed.

Lemma ensures_bind {A B} (Post : B -> World -> Prop) EPost (t : Task A) (f : A -> Task B) w :
  ensures (fun a w' => ensures Post EPost (f a) w') EPost t w ->
  ensures Post EPost (bind t f) w.
Proof.
  revert w. induction t as [a|e|k IH|w1 k IH|q k IH]; intros w; cbn; auto.
Qed.

Lemma ensures_try_catch {A} (Post : A -> World -> Prop) EPost (t : Task A) h w :
  ensures Post (fun e w' => ensures Post EPost (h e) w') t w ->
  ensures Post EPost (try_catch t h) w.
Proof.
  revert w. induction t as [a|e|k IH|w1 k IH|q k IH]; intros w; cbn; auto.
Qed.

(** What holds in every world holds after any task. *)
Lemma ensures_any {A} (Post : A -> World -> Prop) (EPost : string -> World -> Prop)
    (t : Task A) w :
  (forall a w', Post a w') -> (forall e w', EPost e w') -> ensures Post EPost t w.
Proof.
  intros HP HE. revert w. induction t as [a|e|k IH|w1 k IH|q k IH]; intros w; cbn; auto.
Qed.

Section ProviderRuns.

Variable Uri : Type.
Variable toString : Uri -> string.
Variable scheme : Uri -> string.
Variable untitled : Uri.
Variable findLeanPackageRoot : Uri -> option Uri * option Uri * option Uri.

Local Abbreviation folderOf' := (folderOf Uri untitled findLeanPackageRoot).
Local Abbreviation getLeanVersion' :=
  (getLeanVersion Uri toString scheme untitled findLeanPackageRoot).
Local Abbreviation ensureClient' :=
  (ensureClient Uri toString scheme untitled findLeanPackageRoot).
Local Abbreviation installChanged' :=
  (installChanged Uri toString scheme untitled findLeanPackageRoot).
Local Abbreviation rootOf' := (rootOf Uri toString untitled findLeanPackageRoot).


Lemma ensureClient_cached_run uri known w c :
  JsMap.get (rootOf' uri) (clients w) = Some c ->
  run (ensureClient' uri known) w = (with_activeClient (Some c) w, Finished (true, Some c)).
Proof.
  unfold ensureClient, rootOf.
  set (root := toString (folderOf Uri untitled findLeanPackageRoot uri)).
  intros Hg. cbn [bind get run].
  assert (Hh : JsMap.has root (clients w) = true) by (unfold JsMap.has; now rewrite Hg).
  rewrite Hh, Hg. reflexivity.
Qed.

(** X9: [ensureClient] on a root that has a connection returns it at once, as
    cached, whatever version is passed in: nothing is probed or made and
    only the active client changes.  On a root without connection whose
    guard is held it returns no connection at once and clears the active
    client. *)
Theorem ensureClient_fast_paths (uri : Uri) (known : option LeanVersion) (w : World) :
  let root := rootOf' uri in
  (forall c, JsMap.get root (clients w) = Some c ->
     run (ensureClient' uri known) w
       = (with_activeClient (Some c) w, Finished (true, Some c))) /\
  (JsMap.get root (clients w) = None ->
   JsMap.has root (pending w) = true ->
   run (ensureClient' uri known) w = (with_activeClient None w, Finished (false, None))).
Proof.
  intros root. split.
  - intros c Hg. now apply ensureClient_cached_run.
  - unfold ensureClient, rootOf in *. fold root. cbn [bind get run].
    intros Hg Hp.
    assert (Hh : JsMap.has root (clients w) = false) by (unfold JsMap.has; now rewrite Hg).
    rewrite Hh, Hp. reflexivity.
Qed.

Lemma ensureClient_ensures_active uri known w :
  ensures (fun r w' => forall c, snd r = Some c -> activeClient w' = Some c)
          (fun _ _ => True) (ensureClient' uri known) w.
Proof.
  unfold ensureClient.
  set (root := toString (folderOf Uri untitled findLeanPackageRoot uri)).
  cbn [bind get ensures].
  destruct (JsMap.has root (clients w)) eqn:Hh.
  - destruct (JsMap.get root (clients w)) as [c|]; cbn.
    + now intros c' [= ->].
    + destruct (JsMap.has root (pending w)); cbn; [discriminate|].
      apply ensures_bind, ensures_any; [|auto]. intros vi w1.
      apply ensures_bind, ensures_any; [|auto]. intros [|] w2; cbn; [|discriminate].
      now intros c' [= ->].
  - destruct (JsMap.has root (pending w)); cbn; [discriminate|].
    apply ensures_bind, ensures_any; [|auto]. intros vi w1.
    apply ensures_bind, ensures_any; [|auto]. intros [|] w2; cbn; [|discriminate].
    now intros c' [= ->].
Qed.

(** X10: in every run of [ensureClient], whatever the awaited promises bring
    and whatever else runs in between, a connection the call returns is
    the active client when it returns. *)
Theorem ensureClient_returns_active
    (uri : Uri) (known : option LeanVersion) (answers rest : list Answer)
    (w w' : World) (r : bool * option LeanClient) (c : LeanClient) :
  drive (ensureClient' uri known) answers w = (w', Finished r, rest) ->
  snd r = Some c ->
  activeClient w' = Some c.
Proof.
  intros Hd Hr.
  pose proof (ensures_drive _ _ _ w answers (ensureClient_ensures_active uri known w)) as H.
  rewrite Hd in H. now apply H.
Qed.

(** X11: when the installer rejects the version probe of a root that is new to
    the registry and to the version cache, [ensureClient] throws what the
    probe threw after its client is registered: the client stays in the
    registry, the guard of the root stays set, no connection-added event
    is fired and nothing is started.  A later call for the root therefore
    returns that client as cached. *)
Theorem ensureClient_probe_rejected
    (uri : Uri) (e : string) (r2 : Response) (w : World) :
  let root := rootOf' uri in
  let c := mkLeanClient (nextId w) root in
  let w1 := registered root w in
  JsMap.has root (clients w) = false ->
  JsMap.has root (pending w) = false ->
  JsMap.has (toString (folderOf' (folderOf' uri))) (versions w) = false ->
  String.eqb (scheme (folderOf' uri)) "untitled" = false ->
  drive (ensureClient' uri None) [(RRejected e, fun u => u); (r2, fun u => u)] w
    = (w1, Failed e, []) /\
  JsMap.get root (clients w1) = Some c /\
  JsMap.has root (pending w1) = true /\
  (forall c', ~ In (EClientAdded c') (trace w) -> ~ In (EClientAdded c') (trace w1)) /\
  (forall c', ~ In (EStart c') (trace w) -> ~ In (EStart c') (trace w1)) /\
  (forall known,
     run (ensureClient' uri known) w1 = (with_activeClient (Some c) w1, Finished (true, Some c))).
Proof.
  intros root c w1 Hc Hp Hv Hs.
  assert (Hreg : JsMap.get root (clients w1) = Some c) by apply registered_clients.
  conjs.
  - unfold ensureClient, rootOf in *. fold root. cbn [bind get drive].
    rewrite Hc, Hp. cbn [negb].
    rewrite drive_bind, (drive_of_run _ _ _ _ _ (ensureClient_create_run root w)).
    fold w1. unfold resolveVersion, call, getLeanVersion.
    cbn [bind get try_catch drive]. cbn [versions registered].
    replace (versions w1) with (versions w) by reflexivity.
    rewrite Hv, Hs. reflexivity.
  - exact Hreg.
  - apply registered_pending.
  - intros c' Hn Hin. unfold w1, registered in Hin. cbn in Hin.
    apply in_app_or in Hin. destruct Hin as [Hin|[Hin|[]]]; [|discriminate].
    apply in_app_or in Hin. destruct Hin as [Hin|[Hin|[]]]; [auto|discriminate].
  - intros c' Hn Hin. unfold w1, registered in Hin. cbn in Hin.
    apply in_app_or in Hin. destruct Hin as [Hin|[Hin|[]]]; [|discriminate].
    apply in_app_or in Hin. destruct Hin as [Hin|[Hin|[]]]; [auto|discriminate].
  - intros known. apply ensureClient_cached_run. exact Hreg.
Qed.

Lemma installChanged_ensures_released uri w :
  JsMap.has (toString uri) (testing w) = false ->
  ensures (fun _ w' => JsMap.has (toString uri) (testing w') = false)
          (fun _ _ => False) (installChanged' uri) w.
Proof.
  intros Hg. unfold installChanged. cbn [bind get ensures]. rewrite Hg.
  cbn [bind modify ensures]. apply ensures_bind, ensures_try_catch.
  apply ensures_any.
  - intros _ w'. cbn. apply JsMapFacts.has_delete_same.
  - intros e w'. cbn. apply JsMapFacts.has_delete_same.
Qed.

Lemma installChanged_ensures_no_throw uri w :
  ensures (fun _ _ => True) (fun _ _ => False) (installChanged' uri) w.
Proof.
  unfold installChanged. cbn [bind get ensures].
  destruct (JsMap.has (toString uri) (testing w)); [cbn; exact I|].
  cbn [bind modify ensures]. apply ensures_bind, ensures_try_catch.
  apply ensures_any; intros; cbn; exact I.
Qed.


(** X13: when the probe of a toolchain-change signal answers a version other
    than "4", the listener leaves the registry alone: it logs the error of
    the probe if there is one, releases the guard and returns; no client
    is made, restarted or disposed, also when the root has a connection. *)
Theorem installChanged_other_version
    (uri : Uri) (v : LeanVersion) (env : World -> World) (w : World) :
  let path := toString uri in
  let w1 := env (with_testing (JsMap.set path true) w) in
  JsMap.has path (testing w) = false ->
  String.eqb (version v) "4" = false ->
  drive (installChanged' uri) [(RVersion v, env)] w
    = (with_testing (JsMap.delete path)
         (if truthy_opt (error v)
          then emit (ELog ("Lean version not ok: " ++
                           match error v with Some e => e | None => "" end)) w1
          else w1),
       Finished tt, []).
Proof.
  intros path w1 Hg Hv. unfold installChanged. fold path. cbn [bind get drive].
  rewrite Hg. cbn. rewrite Hv. fold w1.
  destruct (truthy_opt (error v)); reflexivity.
Qed.

End ProviderRuns.

(** ** Removed folders and failed servers *)

Lemma isRemoved_cons root p roots :
  isRemoved root (p :: roots) = String.eqb root p || isRemoved root roots.
Proof. reflexivity. Qed.

Section Removal.

Variable Uri : Type.
Variable toString : Uri -> string.
Variable scheme : Uri -> string.
Variable untitled : Uri.
Variable findLeanPackageRoot : Uri -> option Uri * option Uri * option Uri.

Local Abbreviation folders' := (onDidChangeWorkspaceFolders Uri toString).
Local Abbreviation ensureClient' :=
  (ensureClient Uri toString scheme untitled findLeanPackageRoot).
Local Abbreviation rootOf' := (rootOf Uri toString untitled findLeanPackageRoot).

(** The world after the listener has handled one removed folder. *)
Lemma folders_cons folder rest w :
  run (folders' (folder :: rest)) w =
  run (folders' rest)
      match JsMap.get (toString folder) (clients w) with
      | Some client =>
          emit (EClientRemoved client)
            (emit (EDisposeClient client)
               (with_versions (JsMap.delete (toString folder))
                  (with_clients (JsMap.delete (toString folder)) w)))
      | None => w
      end.
Proof.
  unfold onDidChangeWorkspaceFolders. cbn [forEach bind get run].
  destruct (JsMap.get (toString folder) (clients w)); reflexivity.
Qed.

Lemma folders_finish removed w :
  snd (run (folders' removed) w) = Finished tt.
Proof.
  revert w. induction removed as [|f rest IH]; intros w; [reflexivity|].
  rewrite folders_cons. apply IH.
Qed.

Lemma folders_trace_grows removed w e :
  In e (trace w) -> In e (trace (fst (run (folders' removed) w))).
Proof.
  revert w. induction removed as [|f rest IH]; intros w Hin; [exact Hin|].
  rewrite folders_cons. apply IH.
  destruct (JsMap.get (toString f) (clients w)); [|exact Hin].
  cbn. apply in_or_app. left. apply in_or_app. now left.
Qed.

(** X14: when folders are removed from the workspace, every removed folder
    that had a connection loses it and its cached version, the connection
    is disposed and the connection-removed event is fired for it; the
    connections and cached versions of all other roots stay, a removed
    folder without connection keeps its cached version, and neither the
    guards, the notification tables, the session table nor the active
    client are changed, also when the active client is one of the
    disposed. *)
Theorem onDidChangeWorkspaceFolders_removes (removed : list Uri) (w : World) :
  let roots := removedRoots toString removed in
  let w' := fst (run (folders' removed) w) in
  snd (run (folders' removed) w) = Finished tt /\
  (forall root,
     JsMap.get root (clients w')
     = if isRemoved root roots then None else JsMap.get root (clients w)) /\
  (forall root,
     JsMap.get root (versions w')
     = if isRemoved root roots && JsMap.has root (clients w) then None
       else JsMap.get root (versions w)) /\
  (forall root c,
     isRemoved root roots = true -> JsMap.get root (clients w) = Some c ->
     In (EDisposeClient c) (trace w') /\ In (EClientRemoved c) (trace w')) /\
  pending w' = pending w /\ testing w' = testing w /\
  activeClient w' = activeClient w /\
  rpcSessions w' = rpcSessions w /\
  serverNotifSubscriptions w' = serverNotifSubscriptions w /\
  clientNotifSubscriptions w' = clientNotifSubscriptions w.
Proof.
  cbv zeta. split; [apply folders_finish|].
  revert w. induction removed as [|f rest IH]; intros w.
  - cbn. conjs; auto. discriminate.
  - rewrite folders_cons. unfold removedRoots in *. cbn [map].
    set (path := toString f).
    set (w1 := match JsMap.get path (clients w) with
               | Some client => _ | None => w end).
    destruct (IH w1) as (Hc & Hv & Hd & Hp & Ht & Ha & Hr & Hs & Hcn).
    assert (Hc1 : forall root, JsMap.get root (clients w1)
                  = if String.eqb root path then None else JsMap.get root (clients w)).
    { intros root. subst w1.
      destruct (JsMap.get path (clients w)) as [c|] eqn:Hg; cbn.
      - destruct (String.eqb_spec root path) as [->|Hne].
        + apply JsMapFacts.get_delete_same.
        + now apply JsMapFacts.get_delete_other.
      - destruct (String.eqb_spec root path) as [->|Hne]; auto. }
    assert (Hv1 : forall root, JsMap.get root (versions w1)
                  = if String.eqb root path && JsMap.has path (clients w) then None
                    else JsMap.get root (versions w)).
    { intros root. subst w1. unfold JsMap.has.
      destruct (JsMap.get path (clients w)) as [c|] eqn:Hg; cbn.
      - destruct (String.eqb_spec root path) as [->|Hne]; cbn.
        + apply JsMapFacts.get_delete_same.
        + now apply JsMapFacts.get_delete_other.
      - now rewrite andb_false_r. }
    assert (Hrest : pending w1 = pending w /\ testing w1 = testing w /\
                    activeClient w1 = activeClient w /\ rpcSessions w1 = rpcSessions w /\
                    serverNotifSubscriptions w1 = serverNotifSubscriptions w /\
                    clientNotifSubscriptions w1 = clientNotifSubscriptions w).
    { subst w1. destruct (JsMap.get path (clients w)); cbn; auto 10. }
    destruct Hrest as (Hp1 & Ht1 & Ha1 & Hr1 & Hs1 & Hcn1).
    conjs; try congruence.
    + intros root. rewrite Hc, Hc1, isRemoved_cons.
      destruct (String.eqb root path); cbn; [|reflexivity].
      now destruct (isRemoved root (map toString rest)).
    + intros root. rewrite Hv, Hv1, isRemoved_cons.
      unfold JsMap.has at 1. rewrite Hc1.
      destruct (String.eqb_spec root path) as [->|Hne]; cbn.
      * rewrite andb_false_r. reflexivity.
      * reflexivity.
    + intros root c Hrem Hg. rewrite isRemoved_cons in Hrem.
      destruct (String.eqb_spec root path) as [->|Hne].
      * split; apply folders_trace_grows; subst w1; rewrite Hg; cbn.
        -- apply in_or_app. left. apply in_or_app. right. now left.
        -- apply in_or_app. right. now left.
      * cbn in Hrem. apply (Hd root c Hrem). rewrite Hc1.
        destruct (String.eqb_spec root path); [contradiction|assumption].
Qed.

(** X15: when a server fails, the callback [ensureClient] gave it removes the
    connection of the root from the registry, disposes it and shows the
    error; the cached version of the root, the guards and the active
    client stay as they are.  The next [ensureClient] for the root makes a
    new client and registers it before it is first suspended. *)
Theorem serverFailed_then_reopen (uri : Uri) (err : string) (w : World) :
  let root := rootOf' uri in
  let w' := fst (run (serverFailed_callback root err) w) in
  snd (run (serverFailed_callback root err) w) = Finished tt /\
  JsMap.get root (clients w') = None /\
  (forall other, other <> root ->
     JsMap.get other (clients w') = JsMap.get other (clients w)) /\
  trace w' = (trace w ++ match JsMap.get root (clients w) with
                         | Some c => [EDisposeClient c; EShowError err]
                         | None => [EShowError err]
                         end)%list /\
  versions w' = versions w /\ pending w' = pending w /\
  activeClient w' = activeClient w /\
  (JsMap.has root (pending w) = false ->
   exists w1 q k,
     run (ensureClient' uri None) w' = (w1, Suspended q k) /\
     JsMap.get root (clients w1) = Some (mkLeanClient (nextId w) root)).
Proof.
  intros root w'. subst w'. unfold serverFailed_callback. cbn [bind get run].
  destruct (JsMap.get root (clients w)) as [c|] eqn:Hg; cbn.
  - rewrite JsMapFacts.get_delete_same. conjs; auto.
    + intros other Hne. now apply JsMapFacts.get_delete_other.
    + now rewrite <- app_assoc.
    + intros Hp.
      destruct (ensureClient_registers_first Uri toString scheme untitled findLeanPackageRoot
                  uri (emit (EShowError err) (emit (EDisposeClient c)
                         (with_clients (JsMap.delete root) w))))
        as (w1 & q & k & Hrun & Hreg & _).
      * cbn. apply JsMapFacts.has_delete_same.
      * exact Hp.
      * exists w1, q, k. auto.
  - rewrite JsMapFacts.get_delete_same. conjs; auto.
    + intros other Hne. now apply JsMapFacts.get_delete_other.
    + intros Hp.
      destruct (ensureClient_registers_first Uri toString scheme untitled findLeanPackageRoot
                  uri (emit (EShowError err) (with_clients (JsMap.delete root) w)))
        as (w1 & q & k & Hrun & Hreg & _).
      * cbn. apply JsMapFacts.has_delete_same.
      * exact Hp.
      * exists w1, q, k. auto.
Qed.

End Removal.

(** ** The loops of [onClientRestarted] *)

Lemma keys_set_present {V} k (v v0 : V) m :
  JsMap.get k m = Some v0 -> JsMap.keys (JsMap.set k v m) = JsMap.keys m.
Proof.
  unfold JsMap.keys. induction m as [|[k' v'] r IH]; cbn; [discriminate|].
  destruct (String.eqb_spec k k') as [->|Hne]; cbn; auto.
  intros H. now rewrite IH.
Qed.

Lemma push_in_keys method h (m : JsMap.t (Z * list Handle)) :
  JsMap.keys (push_in method h m) = JsMap.keys m.
Proof.
  unfold push_in. destruct (JsMap.get method m) eqn:E; auto.
  eapply keys_set_present; eauto.
Qed.

Lemma push_in_other method h m other :
  other <> method -> JsMap.get other (push_in method h m) = JsMap.get other m.
Proof.
  intros Hne. unfold push_in. destruct (JsMap.get method m); auto.
  now apply JsMapFacts.get_set_other.
Qed.

Lemma push_in_same method h m n hs :
  JsMap.get method m = Some (n, hs) ->
  JsMap.get method (push_in method h m) = Some (n, (hs ++ [h])%list).
Proof.
  intros Hg. unfold push_in. rewrite Hg. apply JsMapFacts.get_set_same.
Qed.

Lemma existsb_eqb_false m methods :
  ~ In m methods -> existsb (String.eqb m) methods = false.
Proof.
  induction methods as [|x r IH]; cbn; auto.
  intros H. destruct (String.eqb_spec m x) as [->|Hne]; cbn.
  - exfalso. apply H. now left.
  - apply IH. intros Hin. apply H. now right.
Qed.

Lemma resubscribeServer_cons c method rest w :
  run (resubscribeServerNotifs c (method :: rest)) w
  = run (resubscribeServerNotifs c rest) (resubscribeServer_step c method w).
Proof.
  cbn [resubscribeServerNotifs]. unfold resubscribeServer_step, serverSupported, serverKind.
  destruct (String.eqb method "textDocument/publishDiagnostics"); [reflexivity|].
  cbn [orb]. destruct (String.prefix "$" method); reflexivity.
Qed.

Lemma resubscribeServer_step_facts c method w :
  let w1 := resubscribeServer_step c method w in
  (forall other, other <> method ->
     JsMap.get other (serverNotifSubscriptions w1) = JsMap.get other (serverNotifSubscriptions w)) /\
  (serverSupported method = false -> w1 = w) /\
  (serverSupported method = true ->
   nextId w1 = S (nextId w) /\
   In (EAttach (mkHandle (nextId w) c (serverKind method) method)) (trace w1) /\
   forall n hs, JsMap.get method (serverNotifSubscriptions w) = Some (n, hs) ->
     JsMap.get method (serverNotifSubscriptions w1)
     = Some (n, (hs ++ [mkHandle (nextId w) c (serverKind method) method])%list)) /\
  nextId w <= nextId w1 /\
  (forall e, In e (trace w) -> In e (trace w1)) /\
  JsMap.keys (serverNotifSubscriptions w1) = JsMap.keys (serverNotifSubscriptions w) /\
  clientNotifSubscriptions w1 = clientNotifSubscriptions w /\
  rpcSessions w1 = rpcSessions w /\ clients w1 = clients w.
Proof.
  unfold resubscribeServer_step. destruct (serverSupported method); cbn.
  - conjs; auto; try discriminate.
    + intros other Hne. now apply push_in_other.
    + intros _. conjs; auto.
      * apply in_or_app. right. now left.
      * intros n hs Hg. now apply push_in_same.
    + intros e Hin. apply in_or_app. now left.
    + apply push_in_keys.
  - conjs; auto. discriminate.
Qed.

Lemma resubscribeServer_loop c methods w :
  NoDup methods ->
  let w' := fst (run (resubscribeServerNotifs c methods) w) in
  snd (run (resubscribeServerNotifs c methods) w) = Finished tt /\
  nextId w <= nextId w' /\
  (forall e, In e (trace w) -> In e (trace w')) /\
  JsMap.keys (serverNotifSubscriptions w') = JsMap.keys (serverNotifSubscriptions w) /\
  clientNotifSubscriptions w' = clientNotifSubscriptions w /\
  rpcSessions w' = rpcSessions w /\ clients w' = clients w /\
  (forall method n hs,
     JsMap.get method (serverNotifSubscriptions w) = Some (n, hs) ->
     if existsb (String.eqb method) methods && serverSupported method then
       exists h,
         JsMap.get method (serverNotifSubscriptions w') = Some (n, (hs ++ [h])%list) /\
         hclient h = c /\ hkind h = serverKind method /\ hmethod h = method /\
         nextId w <= hid h < nextId w' /\ In (EAttach h) (trace w')
     else JsMap.get method (serverNotifSubscriptions w') = Some (n, hs)).
Proof.
  revert w. induction methods as [|m0 rest IH]; intros w Hnd; cbv zeta.
  - cbn. conjs; auto.
  - rewrite resubscribeServer_cons. inversion Hnd as [|? ? Hnotin Hnd']; subst.
    destruct (resubscribeServer_step_facts c m0 w)
      as (Sother & Sunsup & Ssup & Sid & Stra & Skeys & Soth & Srpc & Scl).
    set (w1 := resubscribeServer_step c m0 w) in *.
    destruct (IH w1 Hnd') as (Hfin & Hid & Htra & Hkeys & Hoth & Hrpc & Hcl & Hent).
    conjs; auto; try congruence; try lia.
    intros method n hs Hg. cbn [existsb].
    destruct (String.eqb_spec method m0) as [->|Hne]; cbn [orb].
    + pose proof (existsb_eqb_false m0 rest Hnotin) as Hex.
      destruct (serverSupported m0) eqn:Es; cbn [andb].
      * destruct (Ssup eq_refl) as (Hn1 & Hin1 & Hpush).
        specialize (Hent m0 n _ (Hpush n hs Hg)). rewrite Hex in Hent. cbn in Hent.
        eexists. conjs; [exact Hent|reflexivity|reflexivity|reflexivity|cbn; lia|cbn; lia|].
        apply Htra. exact Hin1.
      * rewrite (Sunsup eq_refl) in *.
        specialize (Hent m0 n hs Hg). rewrite Hex in Hent. exact Hent.
    + rewrite <- (Sother method Hne) in Hg.
      specialize (Hent method n hs Hg).
      destruct (existsb (String.eqb method) rest && serverSupported method); auto.
      destruct Hent as (h & H1 & H2 & H3 & H4 & H5 & H6).
      exists h. conjs; auto; lia.
Qed.

Lemma resubscribeClient_cons c method rest w :
  run (resubscribeClientNotifs c (method :: rest)) w
  = run (resubscribeClientNotifs c rest) (resubscribeClient_step c method w).
Proof.
  cbn [resubscribeClientNotifs]. unfold resubscribeClient_step, clientSupported, clientKind.
  destruct (String.eqb method "textDocument/didChange"); [reflexivity|].
  cbn [orb]. destruct (String.eqb method "textDocument/didClose"); reflexivity.
Qed.

Lemma resubscribeClient_step_facts c method w :
  let w1 := resubscribeClient_step c method w in
  (forall other, other <> method ->
     JsMap.get other (clientNotifSubscriptions w1) = JsMap.get other (clientNotifSubscriptions w)) /\
  (clientSupported method = false -> w1 = w) /\
  (clientSupported method = true ->
   nextId w1 = S (nextId w) /\
   In (EAttach (mkHandle (nextId w) c (clientKind method) method)) (trace w1) /\
   forall n hs, JsMap.get method (clientNotifSubscriptions w) = Some (n, hs) ->
     JsMap.get method (clientNotifSubscriptions w1)
     = Some (n, (hs ++ [mkHandle (nextId w) c (clientKind method) method])%list)) /\
  nextId w <= nextId w1 /\
  (forall e, In e (trace w) -> In e (trace w1)) /\
  JsMap.keys (clientNotifSubscriptions w1) = JsMap.keys (clientNotifSubscriptions w) /\
  serverNotifSubscriptions w1 = serverNotifSubscriptions w /\
  rpcSessions w1 = rpcSessions w /\ clients w1 = clients w.
Proof.
  unfold resubscribeClient_step. destruct (clientSupported method); cbn.
  - conjs; auto; try discriminate.
    + intros other Hne. now apply push_in_other.
    + intros _. conjs; auto.
      * apply in_or_app. right. now left.
      * intros n hs Hg. now apply push_in_same.
    + intros e Hin. apply in_or_app. now left.
    + apply push_in_keys.
  - conjs; auto. discriminate.
Qed.

Lemma resubscribeClient_loop c methods w :
  NoDup methods ->
  let w' := fst (run (resubscribeClientNotifs c methods) w) in
  snd (run (resubscribeClientNotifs c methods) w) = Finished tt /\
  nextId w <= nextId w' /\
  (forall e, In e (trace w) -> In e (trace w')) /\
  JsMap.keys (clientNotifSubscriptions w') = JsMap.keys (clientNotifSubscriptions w) /\
  serverNotifSubscriptions w' = serverNotifSubscriptions w /\
  rpcSessions w' = rpcSessions w /\ clients w' = clients w /\
  (forall method n hs,
     JsMap.get method (clientNotifSubscriptions w) = Some (n, hs) ->
     if existsb (String.eqb method) methods && clientSupported method then
       exists h,
         JsMap.get method (clientNotifSubscriptions w') = Some (n, (hs ++ [h])%list) /\
         hclient h = c /\ hkind h = clientKind method /\ hmethod h = method /\
         nextId w <= hid h < nextId w' /\ In (EAttach h) (trace w')
     else JsMap.get method (clientNotifSubscriptions w') = Some (n, hs)).
Proof.
  revert w. induction methods as [|m0 rest IH]; intros w Hnd; cbv zeta.
  - cbn. conjs; auto.
  - rewrite resubscribeClient_cons. inversion Hnd as [|? ? Hnotin Hnd']; subst.
    destruct (resubscribeClient_step_facts c m0 w)
      as (Sother & Sunsup & Ssup & Sid & Stra & Skeys & Soth & Srpc & Scl).
    set (w1 := resubscribeClient_step c m0 w) in *.
    destruct (IH w1 Hnd') as (Hfin & Hid & Htra & Hkeys & Hoth & Hrpc & Hcl & Hent).
    conjs; auto; try congruence; try lia.
    intros method n hs Hg. cbn [existsb].
    destruct (String.eqb_spec method m0) as [->|Hne]; cbn [orb].
    + pose proof (existsb_eqb_false m0 rest Hnotin) as Hex.
      destruct (clientSupported m0) eqn:Es; cbn [andb].
      * destruct (Ssup eq_refl) as (Hn1 & Hin1 & Hpush).
        specialize (Hent m0 n _ (Hpush n hs Hg)). rewrite Hex in Hent. cbn in Hent.
        eexists. conjs; [exact Hent|reflexivity|reflexivity|reflexivity|cbn; lia|cbn; lia|].
        apply Htra. exact Hin1.
      * rewrite (Sunsup eq_refl) in *.
        specialize (Hent m0 n hs Hg). rewrite Hex in Hent. exact Hent.
    + rewrite <- (Sother method Hne) in Hg.
      specialize (Hent method n hs Hg).
      destruct (existsb (String.eqb method) rest && clientSupported method); auto.
      destruct Hent as (h & H1 & H2 & H3 & H4 & H5 & H6).
      exists h. conjs; auto; lia.
Qed.

Lemma existsb_eqb_true m methods :
  In m methods -> existsb (String.eqb m) methods = true.
Proof.
  intros H. apply existsb_exists. exists m. split; [assumption|apply String.eqb_refl].
Qed.

Lemma drive_nil {R} (t : Task R) w : drive t [] w = (run t w, []).
Proof.
  revert w. induction t as [a|e|k IH|w1 k IH|q k IH]; intros w; cbn; auto.
Qed.

Lemma run_pair {R} (t : Task R) w : run t w = (fst (run t w), snd (run t w)).
Proof. now destruct (run t w). Qed.

(** The two loops end in [resubscribed], with their results. *)
Lemma resubscribed_run c w :
  NoDup (JsMap.keys (serverNotifSubscriptions w)) ->
  NoDup (JsMap.keys (clientNotifSubscriptions w)) ->
  forall (k : Task unit),
    run (this <- get ;;
         resubscribeClientNotifs c (JsMap.keys (clientNotifSubscriptions this)) ;;
         this <- get ;;
         resubscribeServerNotifs c (JsMap.keys (serverNotifSubscriptions this)) ;;
         k) w
    = run k (resubscribed c w).
Proof.
  intros Hs Hc k. unfold resubscribed. cbn [bind get run].
  destruct (resubscribeClient_loop c _ w Hc) as (Hfin1 & _ & _ & _ & Hsrv & _).
  rewrite run_bind, (run_pair (resubscribeClientNotifs _ _) w), Hfin1.
  set (w1 := fst (run (resubscribeClientNotifs c
                         (JsMap.keys (clientNotifSubscriptions w))) w)) in *.
  cbn [bind get run].
  assert (Hs1 : NoDup (JsMap.keys (serverNotifSubscriptions w1))) by now rewrite Hsrv.
  destruct (resubscribeServer_loop c _ w1 Hs1) as (Hfin2 & _).
  rewrite run_bind, (run_pair (resubscribeServerNotifs _ _) w1), Hfin2.
  reflexivity.
Qed.

Lemma resubscribed_gained_one (c : LeanClient) (w : World) :
  NoDup (JsMap.keys (serverNotifSubscriptions w)) ->
  NoDup (JsMap.keys (clientNotifSubscriptions w)) ->
  let w' := resubscribed c w in
  gained_one c serverSupported serverKind
    (serverNotifSubscriptions w) (serverNotifSubscriptions w') w w' /\
  gained_one c clientSupported clientKind
    (clientNotifSubscriptions w) (clientNotifSubscriptions w') w w' /\
  rpcSessions w' = rpcSessions w /\ clients w' = clients w /\
  (exists k, run (onClientRestarted c false) w = (w', Suspended (Infoview "sendPosition") k)) /\
  (forall r env w0, env w0 = w ->
     exists k, drive (onClientRestarted c true) [(r, env)] w0
               = (w', Suspended (Infoview "sendPosition") k, [])).
Proof.
  intros Hs Hc w'. subst w'. unfold resubscribed.
  destruct (resubscribeClient_loop c _ w Hc)
    as (Hfin1 & Hid1 & Htr1 & Hk1 & Hsrv1 & Hrpc1 & Hcl1 & Hent1).
  set (w1 := fst (run (resubscribeClientNotifs c
                         (JsMap.keys (clientNotifSubscriptions w))) w)) in *.
  assert (Hs1 : NoDup (JsMap.keys (serverNotifSubscriptions w1))) by now rewrite Hsrv1.
  destruct (resubscribeServer_loop c _ w1 Hs1)
    as (Hfin2 & Hid2 & Htr2 & Hk2 & Hcli2 & Hrpc2 & Hcl2 & Hent2).
  set (w2 := fst (run (resubscribeServerNotifs c
                         (JsMap.keys (serverNotifSubscriptions w1))) w1)) in *.
  conjs; try congruence.
  - intros method n hs Hg. rewrite <- Hsrv1 in Hg.
    specialize (Hent2 method n hs Hg).
    rewrite (existsb_eqb_true _ _ (get_in_keys _ _ _ Hg)) in Hent2. cbn [andb] in Hent2.
    destruct (serverSupported method); auto.
    destruct Hent2 as (h & H1 & H2 & H3 & H4 & H5 & H6).
    exists h. conjs; auto; lia.
  - intros method n hs Hg. specialize (Hent1 method n hs Hg).
    rewrite (existsb_eqb_true _ _ (get_in_keys _ _ _ Hg)) in Hent1. cbn [andb] in Hent1.
    rewrite Hcli2.
    destruct (clientSupported method); auto.
    destruct Hent1 as (h & H1 & H2 & H3 & H4 & H5 & H6).
    exists h. conjs; auto; lia.
  - unfold onClientRestarted. cbn [bind].
    rewrite (resubscribed_run c w Hs Hc). fold w1 w2. cbn. eexists. reflexivity.
  - intros r env w0 Henv. unfold onClientRestarted. cbn [bind await drive].
    rewrite Henv, drive_nil, (resubscribed_run c w Hs Hc). fold w1 w2. cbn.
    eexists. reflexivity.
Qed.



Lemma run_try_catch {A} (t : Task A) (h : string -> Task A) w :
  run (try_catch t h) w =
  match run t w with
  | (w', Finished a) => (w', Finished a)
  | (w', Failed e) => run (h e) w'
  | (w', Suspended q k) => (w', Suspended q (fun r => try_catch (k r) h))
  end.
Proof.
  revert w. induction t as [a|e|k IH|w1 k IH|q k IH]; intros w; cbn; auto.
Qed.


(** ** [getLeanDocument] *)

Lemma getLeanDocument_loop_Some vs d :
  getLeanDocument_loop vs = Some d ->
  exists before after,
    vs = (before ++ d :: after)%list /\ isLean (languageId d) = true /\
    forall e, In e before -> isLean (languageId e) = false.
Proof.
  induction vs as [|e rest IH]; cbn; [discriminate|].
  destruct (isLean (languageId e)) eqn:E.
  - intros [= <-]. exists [], rest. cbn. intuition.
  - intros H. destruct (IH H) as (b & a & -> & Hd & Hb).
    exists (e :: b), a. cbn. conjs; auto. intros e' [<-|Hin]; auto.
Qed.

Lemma getLeanDocument_loop_None vs :
  getLeanDocument_loop vs = None <-> forall e, In e vs -> isLean (languageId e) = false.
Proof.
  induction vs as [|e rest IH]; cbn.
  - intuition.
  - destruct (isLean (languageId e)) eqn:E.
    + split; [discriminate|]. intros H. rewrite (H e) in E; [discriminate|now left].
    + rewrite IH. split.
      * intros H e' [<-|Hin]; auto.
      * intros H e' Hin. apply H. now right.
Qed.

(** X18: [getLeanDocument] prefers the active editor: when its document is a
    Lean document it is the result, whatever is visible.  Otherwise the
    result is the first visible editor, in order, with a Lean document.
    There is no result exactly when neither the active editor nor any
    visible editor has a Lean document; a result always has language id
    [lean] or [lean4]. *)
Theorem getLeanDocument_prefers_active
    (activeTextEditor : option TextDocument) (visibleTextEditors : list TextDocument) :
  (forall d, activeTextEditor = Some d -> isLean (languageId d) = true ->
     getLeanDocument activeTextEditor visibleTextEditors = Some d) /\
  ((forall d, activeTextEditor = Some d -> isLean (languageId d) = false) ->
   forall d, getLeanDocument activeTextEditor visibleTextEditors = Some d ->
     exists before after,
       visibleTextEditors = (before ++ d :: after)%list /\
       forall e, In e before -> isLean (languageId e) = false) /\
  (forall d, getLeanDocument activeTextEditor visibleTextEditors = Some d ->
     isLean (languageId d) = true) /\
  (getLeanDocument activeTextEditor visibleTextEditors = None <->
   (forall d, activeTextEditor = Some d -> isLean (languageId d) = false) /\
   (forall e, In e visibleTextEditors -> isLean (languageId e) = false)).
Proof.
  unfold getLeanDocument. conjs.
  - intros d -> H. now rewrite H.
  - intros Ha d Hd.
    assert (Hl : getLeanDocument_loop visibleTextEditors = Some d).
    { destruct activeTextEditor as [a|]; auto. now rewrite (Ha a eq_refl) in Hd. }
    destruct (getLeanDocument_loop_Some _ _ Hl) as (b & a & Hs & _ & Hb). eauto.
  - intros d Hd. destruct activeTextEditor as [a|].
    + destruct (isLean (languageId a)) eqn:E.
      * now injection Hd as <-.
      * now destruct (getLeanDocument_loop_Some _ _ Hd) as (_ & _ & _ & H & _).
    + now destruct (getLeanDocument_loop_Some _ _ Hd) as (_ & _ & _ & H & _).
  - destruct activeTextEditor as [a|].
    + destruct (isLean (languageId a)) eqn:E.
      * split; [discriminate|]. intros [Ha _]. rewrite (Ha a eq_refl) in E. discriminate.
      * rewrite getLeanDocument_loop_None. split.
        -- intros H. split; auto. now intros d [= <-].
        -- now intros [_ H].
    + rewrite getLeanDocument_loop_None. split.
      * intros H. split; auto. discriminate.
      * now intros [_ H].
Qed.

(** ** The text inserted above a line *)

Lemma lines_nonempty s : lines s <> [].
Proof.
  destruct s as [|ch rest]; cbn [lines]; [discriminate|].
  destruct (Ascii.eqb ch LF); [discriminate|].
  destruct (lines rest); discriminate.
Qed.

Lemma lines_margin spaces s :
  lines (margin_str spaces ++ s)
  = match lines s with
    | l :: ls => (margin_str spaces ++ l) :: ls
    | [] => []
    end.
Proof.
  induction spaces as [|n IH]; cbn [margin_str String.append lines].
  - now destruct (lines s).
  - change (Ascii.eqb SPACE LF) with false. cbn iota.
    rewrite IH.
    destruct (lines s) as [|l ls] eqn:El; [now apply lines_nonempty in El|].
    reflexivity.
Qed.

Lemma lines_replaceNewlines text spaces :
  lines (replaceNewlines text (String LF (margin_str spaces)))
  = match lines text with
    | l :: ls => l :: map (String.append (margin_str spaces)) ls
    | [] => []
    end.
Proof.
  induction text as [|ch rest IH]; cbn [replaceNewlines lines]; [reflexivity|].
  destruct (Ascii.eqb ch LF) eqn:E.
  - cbn [String.append lines]. change (Ascii.eqb LF LF) with true. cbn iota.
    rewrite lines_margin, IH.
    destruct (lines rest) as [|l ls] eqn:El; [now apply lines_nonempty in El|].
    reflexivity.
  - cbn [lines]. rewrite E, IH.
    destruct (lines rest) as [|l ls]; reflexivity.
Qed.

(** X19: the text inserted above a line begins with a line feed, and each line
    of the given text follows, in order, behind the indentation of the
    line before: the lines of [new_command] are an empty line and then the
    lines of the text, each prefixed by [spaces] spaces. *)
Theorem new_command_indents_every_line (text : string) (spaces : nat) :
  lines (new_command text spaces)
  = EmptyString :: map (String.append (margin_str spaces)) (lines text).
Proof.
  unfold new_command. cbn [lines]. change (Ascii.eqb LF LF) with true. cbn iota.
  rewrite lines_margin, lines_replaceNewlines.
  destruct (lines text) as [|l ls] eqn:El; [now apply lines_nonempty in El|].
  reflexivity.
Qed.

(** ** Rejected promises *)

(** X20: when the connect request is rejected, [createRpcSession] throws what
    the request threw: no session is made, no timer is set and the session
    table is not written. *)
Theorem createRpcSession_connect_rejected
    (uri e : string) (w : World) (c : LeanClient)
    (env1 env2 : World -> World) (r : Response) :
  findClient uri w = Some c ->
  drive (createRpcSession uri) [(RRejected e, env1); (r, env2)] w
    = (env2 (env1 w), Failed e, []).
Proof.
  intros Hc. unfold createRpcSession. cbn [bind get drive]. rewrite Hc. reflexivity.
Qed.

Section StartRejected.

Variable Uri : Type.
Variable toString : Uri -> string.
Variable scheme : Uri -> string.
Variable untitled : Uri.
Variable findLeanPackageRoot : Uri -> option Uri * option Uri * option Uri.

Local Abbreviation ensureClient' :=
  (ensureClient Uri toString scheme untitled findLeanPackageRoot).
Local Abbreviation rootOf' := (rootOf Uri toString untitled findLeanPackageRoot).

(** X21: when [start] is rejected for a connection [ensureClient] has just
    made with a known Lean 4 version without error, the call throws what
    [start] threw.  By then the connection-added event has been fired and
    the guard released; the connection stays in the registry, and the
    active client is not set to it. *)
Theorem ensureClient_start_rejected
    (uri : Uri) (v : LeanVersion) (e : string) (env : World -> World) (w : World) :
  let root := rootOf' uri in
  let c := mkLeanClient (nextId w) root in
  let w3 := fst (run (ensureClient_setup root c (Some v)) (registered root w)) in
  JsMap.has root (clients w) = false ->
  JsMap.has root (pending w) = false ->
  version v = "4" ->
  truthy_opt (error v) = false ->
  drive (ensureClient' uri (Some v)) [(RRejected e, env)] w = (env w3, Failed e, []) /\
  JsMap.get root (clients w3) = Some c /\
  JsMap.has root (pending w3) = false /\
  In (EClientAdded c) (trace w3) /\
  In (EStart c) (trace w3) /\
  activeClient w3 = activeClient w.
Proof.
  intros root c w3 Hc Hp Hv He. subst w3.
  unfold rootOf in *.
  rewrite (ensureClient_new Uri toString scheme untitled findLeanPackageRoot
             uri (Some v) _ w Hc Hp).
  fold root c. unfold resolveVersion. cbn [bind].
  unfold ensureClient_setup, readyToStart.
  rewrite (isForeign_4 v Hv), He. cbn.
  rewrite JsMapFacts.get_set_same, JsMapFacts.has_delete_same.
  conjs; auto.
  - apply in_or_app. left. apply in_or_app. left. apply in_or_app. left.
    apply in_or_app. right. now left.
  - apply in_or_app. right. now left.
Qed.

End StartRejected.

(** ** The further theorems at concrete inputs *)

Lemma subscribe_first_attaches_per_client_witness :
  JsMap.get InfoRuns.fileProgress (serverNotifSubscriptions InfoRuns.panel_open) = None /\
  serverSupported InfoRuns.fileProgress = true /\
  map hclient (handlersOf (serverNotifSubscriptions
                             (fst (run (subscribeServerNotifications InfoRuns.fileProgress)
                                       InfoRuns.panel_open)))
                          InfoRuns.fileProgress)
  = getClients InfoRuns.panel_open.
Proof.
  split; [reflexivity|]. split; [reflexivity|].
  apply (proj1 (subscribe_first_attaches_per_client InfoRuns.fileProgress InfoRuns.panel_open)
               eq_refl eq_refl).
Defined.

Lemma subscribe_unsupported_fails_witness :
  JsMap.get MoreInputs.hover (serverNotifSubscriptions InfoRuns.panel_open) = None /\
  serverSupported MoreInputs.hover = false /\
  run (subscribeServerNotifications MoreInputs.hover) InfoRuns.panel_open
  = (InfoRuns.panel_open,
     Failed ("subscription to " ++ MoreInputs.hover ++ " server notifications not implemented")).
Proof.
  split; [reflexivity|]. split; [reflexivity|].
  apply (proj1 (subscribe_unsupported_fails MoreInputs.hover InfoRuns.panel_open)
               eq_refl eq_refl).
Defined.

Lemma counted_panel_open : counted (serverNotifSubscriptions InfoRuns.panel_open).
Proof. intros m. cbn. split; [lia|discriminate]. Defined.


Lemma closeRpcSession_removes_witness :
  JsMap.get "session-1" (rpcSessions InfoRuns.session_open) = Some InfoRuns.session1 /\
  trace (fst (run (closeRpcSession "session-1") InfoRuns.session_open))
  = (trace InfoRuns.session_open ++ [EClearInterval (keepAliveInterval InfoRuns.session1)])%list.
Proof.
  split; [reflexivity|].
  apply (closeRpcSession_removes "session-1" InfoRuns.session_open). reflexivity.
Defined.

Lemma createRpcSession_then_close_witness :
  findClient Inputs.main InfoRuns.panel_open = Some Ws.client_ws /\
  webviewPanel InfoRuns.panel_open = true /\
  drive (createRpcSession Inputs.main)
        [Ws.quiet (RConnected "session-1"); Ws.quiet RUnit] InfoRuns.panel_open
  = (InfoRuns.session_open, Finished "session-1", []).
Proof.
  split; [reflexivity|]. split; [reflexivity|].
  apply (createRpcSession_then_close Inputs.main "session-1" InfoRuns.panel_open
           Ws.client_ws (fun w => w) (fun w => w) RUnit eq_refl eq_refl).
Defined.

Lemma NoDup_one (k : string) : NoDup [k].
Proof. constructor; [intros []|constructor]. Defined.

Lemma clearRpcSessions_by_owner_witness :
  NoDup (JsMap.keys (rpcSessions InfoRuns.session_open)) /\
  JsMap.get "session-1"
    (rpcSessions (fst (run (clearRpcSessions (Some Ws.client_ws)) InfoRuns.session_open)))
  = None.
Proof.
  split; [exact (NoDup_one "session-1")|].
  destruct (proj1 (clearRpcSessions_by_owner InfoRuns.session_open) Ws.client_ws
                  (NoDup_one "session-1")) as (_ & Hget & _).
  exact (Hget "session-1").
Defined.


Lemma ensureClient_fast_paths_witness :
  JsMap.get "file:///ws" (clients Ws.opened_ws) = Some Ws.client_ws /\
  run (Ws.ensureClient Inputs.main (Some Ws.lean3)) Ws.opened_ws
  = (with_activeClient (Some Ws.client_ws) Ws.opened_ws, Finished (true, Some Ws.client_ws)).
Proof.
  split; [reflexivity|].
  apply (proj1 (ensureClient_fast_paths
                  Ws.Uri Ws.toString Ws.scheme Ws.untitled Ws.findLeanPackageRoot
                  Inputs.main (Some Ws.lean3) Ws.opened_ws) Ws.client_ws eq_refl).
Defined.

Lemma ensureClient_returns_active_witness :
  drive (Ws.ensureClient Inputs.main None)
        [Ws.quiet (RVersion Ws.lean4); Ws.quiet RUnit; Ws.quiet RUnit] emptyWorld
  = (Ws.opened_ws, Finished (false, Some Ws.client_ws), []) /\
  snd (false, Some Ws.client_ws) = Some Ws.client_ws /\
  activeClient Ws.opened_ws = Some Ws.client_ws.
Proof.
  split; [reflexivity|]. split; [reflexivity|].
  apply (ensureClient_returns_active
           Ws.Uri Ws.toString Ws.scheme Ws.untitled Ws.findLeanPackageRoot
           Inputs.main None [Ws.quiet (RVersion Ws.lean4); Ws.quiet RUnit; Ws.quiet RUnit] []
           emptyWorld Ws.opened_ws (false, Some Ws.client_ws) Ws.client_ws eq_refl eq_refl).
Defined.

Lemma ensureClient_probe_rejected_witness :
  JsMap.has "file:///ws" (clients emptyWorld) = false /\
  JsMap.has "file:///ws" (pending emptyWorld) = false /\
  JsMap.has "file:///ws" (versions emptyWorld) = false /\
  String.eqb (Ws.scheme Ws.ws) "untitled" = false /\
  drive (Ws.ensureClient Inputs.main None)
        [(RRejected "elan not found", fun u => u); (RUnit, fun u => u)] emptyWorld
  = (registered "file:///ws" emptyWorld, Failed "elan not found", []).
Proof.
  split; [reflexivity|]. split; [reflexivity|]. split; [reflexivity|]. split; [reflexivity|].
  apply (ensureClient_probe_rejected
           Ws.Uri Ws.toString Ws.scheme Ws.untitled Ws.findLeanPackageRoot
           Inputs.main "elan not found" RUnit emptyWorld eq_refl eq_refl eq_refl eq_refl).
Defined.


Lemma installChanged_other_version_witness :
  JsMap.has Inputs.toolchain (testing Ws.opened_ws) = false /\
  String.eqb (version Ws.lean3) "4" = false /\
  drive (Ws.installChanged Inputs.toolchain) [(RVersion Ws.lean3, fun u => u)] Ws.opened_ws
  = (with_testing (JsMap.delete Inputs.toolchain)
       (with_testing (JsMap.set Inputs.toolchain true) Ws.opened_ws),
     Finished tt, []).
Proof.
  split; [reflexivity|]. split; [reflexivity|].
  apply (installChanged_other_version
           Ws.Uri Ws.toString Ws.scheme Ws.untitled Ws.findLeanPackageRoot
           Inputs.toolchain Ws.lean3 (fun u => u) Ws.opened_ws eq_refl eq_refl).
Defined.

Lemma onDidChangeWorkspaceFolders_removes_witness :
  isRemoved "file:///ws" (removedRoots Ws.toString [Ws.ws]) = true /\
  JsMap.get "file:///ws" (clients Ws.opened_nested) = Some Ws.client_ws /\
  In (EDisposeClient Ws.client_ws)
     (trace (fst (run (Ws.onDidChangeWorkspaceFolders [Ws.ws]) Ws.opened_nested))) /\
  In (EClientRemoved Ws.client_ws)
     (trace (fst (run (Ws.onDidChangeWorkspaceFolders [Ws.ws]) Ws.opened_nested))).
Proof.
  split; [reflexivity|]. split; [reflexivity|].
  destruct (onDidChangeWorkspaceFolders_removes Ws.Uri Ws.toString [Ws.ws] Ws.opened_nested)
    as (_ & _ & _ & Hd & _).
  exact (Hd "file:///ws" Ws.client_ws eq_refl eq_refl).
Defined.

Lemma serverFailed_then_reopen_witness :
  JsMap.has "file:///ws" (pending Ws.opened_ws) = false /\
  exists w1 q k,
    run (Ws.ensureClient Inputs.main None)
        (fst (run (serverFailed_callback "file:///ws" "server crashed") Ws.opened_ws))
    = (w1, Suspended q k) /\
    JsMap.get "file:///ws" (clients w1) = Some (mkLeanClient 1 "file:///ws").
Proof.
  split; [reflexivity|].
  destruct (serverFailed_then_reopen
              Ws.Uri Ws.toString Ws.scheme Ws.untitled Ws.findLeanPackageRoot
              Inputs.main "server crashed" Ws.opened_ws)
    as (_ & _ & _ & _ & _ & _ & _ & H).
  exact (H eq_refl).
Defined.



Lemma getLeanDocument_prefers_active_witness :
  isLean (languageId MoreInputs.mainDoc) = true /\
  getLeanDocument (Some MoreInputs.mainDoc) [MoreInputs.readme; MoreInputs.mainDoc]
  = Some MoreInputs.mainDoc.
Proof.
  split; [reflexivity|].
  apply (proj1 (getLeanDocument_prefers_active (Some MoreInputs.mainDoc)
                  [MoreInputs.readme; MoreInputs.mainDoc]) MoreInputs.mainDoc eq_refl eq_refl).
Defined.

Lemma createRpcSession_connect_rejected_witness :
  findClient Inputs.main InfoRuns.panel_open = Some Ws.client_ws /\
  drive (createRpcSession Inputs.main)
        [Ws.quiet (RRejected "server closed"); Ws.quiet RUnit] InfoRuns.panel_open
  = (InfoRuns.panel_open, Failed "server closed", []).
Proof.
  split; [reflexivity|].
  apply (createRpcSession_connect_rejected Inputs.main "server closed" InfoRuns.panel_open
           Ws.client_ws (fun w => w) (fun w => w) RUnit eq_refl).
Defined.

Lemma ensureClient_start_rejected_witness :
  JsMap.has "file:///ws" (clients emptyWorld) = false /\
  JsMap.has "file:///ws" (pending emptyWorld) = false /\
  version Ws.lean4 = "4" /\
  truthy_opt (error Ws.lean4) = false /\
  drive (Ws.ensureClient Inputs.main (Some Ws.lean4))
        [(RRejected "spawn failed", fun u => u)] emptyWorld
  = (fst (run (ensureClient_setup "file:///ws" Ws.client_ws (Some Ws.lean4))
              (registered "file:///ws" emptyWorld)),
     Failed "spawn failed", []).
Proof.
  split; [reflexivity|]. split; [reflexivity|]. split; [reflexivity|]. split; [reflexivity|].
  apply (ensureClient_start_rejected
           Ws.Uri Ws.toString Ws.scheme Ws.untitled Ws.findLeanPackageRoot
           Inputs.main Ws.lean4 "spawn failed" (fun u => u) emptyWorld
           eq_refl eq_refl eq_refl eq_refl).
Defined.
